(** * IzanamiAlgorithm: retry with exponential backoff and a reflection phase

    A shallow embedding of [src/src/IzanamiAlgorithm.js] and the properties
    its specification states about it.

    Modelling decisions, each visible in the definitions below:
    - [maxAttempts], [errorThreshold] and the attempt counter are integers
      ([Z]); [backoffFactor], [initialDelay] and the computed delay are exact
      rationals ([Q]), so the rounding of IEEE doubles, [NaN] and the
      infinities are outside the model.
    - The class extends Node's [EventEmitter].  [emit] delivers to the
      registered listeners, which are observers that return normally; the one
      behaviour of [emit] that is its own is kept: emitting ['error'] while no
      listener is registered for it throws.
    - The task and the reflection strategy are caller code: each is a function
      of its arguments and of the number of earlier invocations to a settled
      promise (resolved or rejected).  A promise that never settles is outside
      the model.
    - [console.log] output is not recorded in the trace (the lines the
      default strategy prints are [defaultReflectionOutput]); every other
      call that leaves the class (emit, the task, the logger, the timer, the
      strategy) is appended to a trace together with the run state at the
      moment of the call. *)

From Stdlib Require Import ZArith QArith List String Bool Lia.
From Stdlib Require DecimalString.
Import ListNotations.

Open Scope Z_scope.

(** ** JavaScript values *)

Module Js.

(** A thrown or rejected value.  [Error] is [new Error(message)];
    [ErrUnhandledError] is what [emit('error', payload)] throws when nothing
    listens and the payload is not itself an [Error]. *)
Inductive JsError : Type :=
| Error (msg stk : string)
| ErrUnhandledError (attempt : Z) (error : JsError).

Definition message (e : JsError) : string :=
  match e with
  | Error m _ => m
  | ErrUnhandledError _ _ => "Unhandled error."%string
  end.

Definition stack (e : JsError) : string :=
  match e with
  | Error _ s => s
  | ErrUnhandledError _ _ => ""%string
  end.

(** The state an awaited promise settles in; the resolution value is never
    read by the class. *)
Inductive Settled : Type :=
| Resolved
| Rejected (reason : JsError).

Inductive Prim : Type :=
| PUndefined
| PNull
| PBoolean (b : bool)
| PNumber (q : Q)
| PString (s : string).

(** An async function: input and number of earlier invocations to outcome. *)
Definition AsyncFn (A : Type) : Type := A -> nat -> Settled.

Inductive Value : Type :=
| Primitive (p : Prim)
| Function (f : AsyncFn (list Prim))
| Object.

(** [typeof v === 'function'] *)
Definition is_function (v : Value) : bool :=
  match v with
  | Function _ => true
  | _ => false
  end.

(** Truthiness of the option types the constructor reads. *)
Definition truthyZ (z : Z) : bool := negb (z =? 0).
Definition truthyQ (q : Q) : bool := negb (Qeq_bool q 0).
Definition truthyString (s : string) : bool :=
  match s with
  | EmptyString => false
  | _ => true
  end.

(** [v || d], where [None] is a property that is absent ([undefined]). *)
Definition or_default {A : Type} (truthy : A -> bool) (v : option A) (d : A) : A :=
  match v with
  | Some a => if truthy a then a else d
  | None => d
  end.

End Js.

Import Js.

(** ** The instance *)

Inductive EventName : Type :=
| beforeAttempt
| success
| error
| reflection
| reflectionExit
| failure.

Definition EventName_eqb (a b : EventName) : bool :=
  match a, b with
  | beforeAttempt, beforeAttempt
  | success, success
  | error, error
  | reflection, reflection
  | reflectionExit, reflectionExit
  | failure, failure => true
  | _, _ => false
  end.

(** The object passed to [new IzanamiAlgorithm(options)]. *)
Record Options : Type := {
  opt_task : Value;
  opt_maxAttempts : option Z;
  opt_errorThreshold : option Z;
  opt_backoffFactor : option Q;
  opt_initialDelay : option Q;
  opt_onReflection : option (AsyncFn (list JsError));
  opt_logFile : option string
}.

(** The fields under [// Configuration]. *)
Record Config : Type := {
  task : AsyncFn (list Prim);
  maxAttempts : Z;
  errorThreshold : Z;
  backoffFactor : Q;
  initialDelay : Q;
  onReflection : AsyncFn (list JsError);
  logFile : string
}.

(** The fields under [// State]. *)
Record RunState : Type := {
  attempts : Z;
  errors : list JsError;
  errorLoop : bool
}.

(** [this]: the emitter's listener table, the configuration and the state. *)
Record Izanami : Type := {
  listenerCount : EventName -> nat;
  config : Config;
  state : RunState
}.

Definition initialState : RunState :=
  {| attempts := 0; errors := []; errorLoop := false |}.

(** First-seen deduplication, as [[...new Set(errorMessages)]]. *)
Fixpoint uniqueErrors (seen msgs : list string) : list string :=
  match msgs with
  | [] => []
  | m :: rest =>
      if existsb (String.eqb m) seen then uniqueErrors seen rest
      else m :: uniqueErrors (m :: seen) rest
  end.

(** [defaultReflection]: prints the unique messages and resolves. *)
Definition defaultReflection : AsyncFn (list JsError) :=
  fun errs _ =>
    let errorMessages := map message errs in
    let _ := uniqueErrors [] errorMessages in
    Resolved.

Definition defaultLogFile : string := "logs/error.log"%string.

(** [constructor(options)]: [inl] is the thrown error, [inr] the instance. *)
Definition constructor (options : option Options) : JsError + Izanami :=
  match options with
  | None => inl (Error "A valid task function must be provided." "")
  | Some o =>
      match opt_task o with
      | Function f =>
          inr {| listenerCount := fun _ => 0%nat;
                 config :=
                   {| task := f;
                      maxAttempts := or_default truthyZ (opt_maxAttempts o) 5;
                      errorThreshold := or_default truthyZ (opt_errorThreshold o) 3;
                      backoffFactor := or_default truthyQ (opt_backoffFactor o) (2 # 1);
                      initialDelay := or_default truthyQ (opt_initialDelay o) (1000 # 1);
                      onReflection :=
                        or_default (fun _ => true) (opt_onReflection o) defaultReflection;
                      logFile := or_default truthyString (opt_logFile o) defaultLogFile |};
                 state := initialState |}
      | _ => inl (Error "A valid task function must be provided." "")
      end
  end.

(** [emitter.on(name, listener)] *)
Definition on (name : EventName) (iz : Izanami) : Izanami :=
  {| listenerCount :=
       fun n => if EventName_eqb n name then S (listenerCount iz n) else listenerCount iz n;
     config := config iz;
     state := state iz |}.

(** ** Effects *)

Inductive Notification : Type :=
| BeforeAttempt (attempt : Z)
| Success (attempt : Z)
| ErrorEvent (attempt : Z) (err : JsError)
| Reflection (errs : list JsError)
| ReflectionExit
| Failure (errs : list JsError).

Definition nameOf (n : Notification) : EventName :=
  match n with
  | BeforeAttempt _ => beforeAttempt
  | Success _ => success
  | ErrorEvent _ _ => error
  | Reflection _ => reflection
  | ReflectionExit => reflectionExit
  | Failure _ => failure
  end.

(** The two shapes of object handed to [logger.error]. *)
Inductive LogEntry : Type :=
| AttemptFailed (attempt : Z) (msg stk : string)
| ReflectionFailed (msg err stk : string).

(** A call that leaves the class. *)
Inductive Call : Type :=
| Emit (n : Notification)
| InvokeTask (args : list Prim)
| LoggerError (entry : LogEntry)
| Sleep (ms : Q)
| InvokeReflection (errs : list JsError).

(** A call and the run state at the moment it is made. *)
Definition Obs : Type := (Call * RunState)%type.

Record World : Type := {
  this : Izanami;
  taskCalls : nat;
  reflectionCalls : nat;
  trace : list Obs
}.

Definition start (iz : Izanami) : World :=
  {| this := iz; taskCalls := 0; reflectionCalls := 0; trace := [] |}.

Inductive Completion (A : Type) : Type :=
| Normal (a : A)
| Throw (e : JsError)
| OutOfFuel.
Arguments Normal {A} a.
Arguments Throw {A} e.
Arguments OutOfFuel {A}.

Definition M (A : Type) : Type := World -> Completion A * World.

Definition ret {A : Type} (a : A) : M A := fun w => (Normal a, w).

Definition bind {A B : Type} (m : M A) (k : A -> M B) : M B :=
  fun w =>
    match m w with
    | (Normal a, w') => k a w'
    | (Throw e, w') => (Throw e, w')
    | (OutOfFuel, w') => (OutOfFuel, w')
    end.

(** [try { body } catch (e) { handler(e) }] *)
Definition try_catch {A : Type} (body : M A) (handler : JsError -> M A) : M A :=
  fun w =>
    match body w with
    | (Throw e, w') => handler e w'
    | r => r
    end.

Declare Scope js_scope.
Delimit Scope js_scope with js.
Notation "x <- m ;; k" := (bind m (fun x => k))
  (at level 61, m at next level, right associativity) : js_scope.
Notation "m ;; k" := (bind m (fun _ => k))
  (at level 61, right associativity) : js_scope.

Definition getState : M RunState := fun w => (Normal (state (this w)), w).
Definition getConfig : M Config := fun w => (Normal (config (this w)), w).

(** The world after an assignment to the fields of [// State]. *)
Definition withState (s : RunState) (w : World) : World :=
  {| this := {| listenerCount := listenerCount (this w);
                config := config (this w);
                state := s |};
     taskCalls := taskCalls w;
     reflectionCalls := reflectionCalls w;
     trace := trace w |}.

(** The world after a call: the call, with the current run state, is appended
    to the trace. *)
Definition observed (c : Call) (w : World) : World :=
  {| this := this w;
     taskCalls := taskCalls w;
     reflectionCalls := reflectionCalls w;
     trace := trace w ++ [(c, state (this w))] |}.

Definition taskInvoked (w : World) : World :=
  {| this := this w;
     taskCalls := S (taskCalls w);
     reflectionCalls := reflectionCalls w;
     trace := trace w |}.

Definition reflectionInvoked (w : World) : World :=
  {| this := this w;
     taskCalls := taskCalls w;
     reflectionCalls := S (reflectionCalls w);
     trace := trace w |}.

Definition setState (s : RunState) : M unit := fun w => (Normal tt, withState s w).

Definition observe (c : Call) : M unit := fun w => (Normal tt, observed c w).

(** [this.emit(name, payload)]: throws for ['error'] without a listener,
    otherwise returns whether there were listeners. *)
Definition emit (n : Notification) : M bool :=
  fun w =>
    match n, listenerCount (this w) error with
    | ErrorEvent a e, O => (Throw (ErrUnhandledError a e), observed (Emit n) w)
    | _, _ =>
        (Normal (negb (Nat.eqb (listenerCount (this w) (nameOf n)) 0)),
         observed (Emit n) w)
    end.

(** [this.logger.error(entry)] *)
Definition loggerError (entry : LogEntry) : M unit := observe (LoggerError entry).

(** [await this.sleep(ms)] *)
Definition sleep (ms : Q) : M unit := observe (Sleep ms).

(** [await this.task(...args)] *)
Definition awaitTask (args : list Prim) : M unit :=
  fun w =>
    let w' := taskInvoked (observed (InvokeTask args) w) in
    match task (config (this w)) args (taskCalls w) with
    | Resolved => (Normal tt, w')
    | Rejected e => (Throw e, w')
    end.

(** [await this.onReflection(this.errors)] *)
Definition awaitReflection (errs : list JsError) : M unit :=
  fun w =>
    let w' := reflectionInvoked (observed (InvokeReflection errs) w) in
    match onReflection (config (this w)) errs (reflectionCalls w) with
    | Resolved => (Normal tt, w')
    | Rejected e => (Throw e, w')
    end.

(** ** The methods *)

Open Scope js_scope.

(** [reset()] *)
Definition reset : M unit :=
  setState {| attempts := 0; errors := []; errorLoop := false |}.

(** [enterReflectionPhase()] *)
Definition enterReflectionPhase : M unit :=
  s <- getState ;;
  setState {| attempts := attempts s; errors := errors s; errorLoop := true |} ;;
  try_catch
    (s <- getState ;;
     awaitReflection (errors s) ;;
     s <- getState ;;
     emit (Reflection (errors s)) ;;
     ret tt)
    (fun reflectionError =>
       loggerError (ReflectionFailed "Reflection phase failed"
                      (message reflectionError) (stack reflectionError))).

(** How one pass through the body of the [while] ends: at its closing brace
    or at the [return] after a success. *)
Inductive Flow : Type :=
| Next
| Return.

(** The delay of the [else] branch:
    [this.initialDelay * Math.pow(this.backoffFactor, this.attempts - 1)]. *)
Definition backoffDelay (c : Config) (s : RunState) : Q :=
  Qmult (initialDelay c) (Qpower (backoffFactor c) (attempts s - 1)).

(** The body of the [while] loop of [runTask]. *)
Definition attempt (args : list Prim) : M Flow :=
  s <- getState ;;
  setState {| attempts := attempts s + 1; errors := errors s; errorLoop := errorLoop s |} ;;
  try_catch
    (s <- getState ;;
     emit (BeforeAttempt (attempts s)) ;;
     awaitTask args ;;
     s <- getState ;;
     emit (Success (attempts s)) ;;
     ret Return)
    (fun err =>
       s <- getState ;;
       setState {| attempts := attempts s; errors := errors s ++ [err];
                   errorLoop := errorLoop s |} ;;
       s <- getState ;;
       loggerError (AttemptFailed (attempts s) (message err) (stack err)) ;;
       emit (ErrorEvent (attempts s) err) ;;
       s <- getState ;;
       c <- getConfig ;;
       (if errorThreshold c <=? Z.of_nat (List.length (errors s))
        then enterReflectionPhase
        else sleep (backoffDelay c s)) ;;
       ret Next).

(** [while (this.attempts < this.maxAttempts && !this.errorLoop) { ... }];
    the fuel bounds the number of passes. *)
Fixpoint while (fuel : nat) (args : list Prim) : M Flow :=
  s <- getState ;;
  c <- getConfig ;;
  if (attempts s <? maxAttempts c) && negb (errorLoop s) then
    match fuel with
    | O => fun w => (OutOfFuel, w)
    | S fuel' =>
        f <- attempt args ;;
        match f with
        | Return => ret Return
        | Next => while fuel' args
        end
    end
  else ret Next.

(** The statements after the loop. *)
Definition afterLoop : M unit :=
  s <- getState ;;
  if errorLoop s then
    emit ReflectionExit ;;
    reset
  else
    emit (Failure (errors s)) ;;
    ret tt.

(** [runTask(...args)] with an explicit bound on the passes of the loop. *)
Definition runTaskFuel (fuel : nat) (args : list Prim) : M unit :=
  f <- while fuel args ;;
  match f with
  | Return => ret tt
  | Next => afterLoop
  end.

(** [runTask(...args)]: every pass increments [attempts], so
    [maxAttempts - attempts] passes are enough. *)
Definition runTask (args : list Prim) : M unit :=
  fun w =>
    runTaskFuel (Z.to_nat (maxAttempts (config (this w)) - attempts (state (this w))))
      args w.

Close Scope js_scope.

(** * One pass of the loop, named *)

(** The run state after [this.attempts++]. *)
Definition began (s : RunState) : RunState :=
  {| attempts := attempts s + 1; errors := errors s; errorLoop := errorLoop s |}.

(** The run state after [this.attempts++] and [this.errors.push(e)]. *)
Definition failed (e : JsError) (s : RunState) : RunState :=
  {| attempts := attempts s + 1; errors := errors s ++ [e]; errorLoop := errorLoop s |}.

(** The run state after [this.errorLoop = true]. *)
Definition reflecting (s : RunState) : RunState :=
  {| attempts := attempts s; errors := errors s; errorLoop := true |}.

(** The loop condition [this.attempts < this.maxAttempts && !this.errorLoop]. *)
Definition loopCond (w : World) : bool :=
  (attempts (state (this w)) <? maxAttempts (config (this w)))
  && negb (errorLoop (state (this w))).

(** The calls of a pass up to the outcome of the task. *)
Definition callsBefore (args : list Prim) (s : RunState) : list Obs :=
  [(Emit (BeforeAttempt (attempts (began s))), began s); (InvokeTask args, began s)].

(** The calls that record a rejection [e] of the task. *)
Definition callsRejected (e : JsError) (s : RunState) : list Obs :=
  [(LoggerError (AttemptFailed (attempts (failed e s)) (message e) (stack e)), failed e s);
   (Emit (ErrorEvent (attempts (failed e s)) e), failed e s)].

(** The last call of [enterReflectionPhase] for each outcome of the strategy. *)
Definition reflectionOutcome (r : Settled) (s : RunState) : Obs :=
  match r with
  | Resolved => (Emit (Reflection (errors s)), s)
  | Rejected re =>
      (LoggerError (ReflectionFailed "Reflection phase failed" (message re) (stack re)), s)
  end.

(** What a pass of the loop returns, by the outcome of the task, the
    listeners of ['error'], the threshold and the outcome of the strategy. *)
Inductive AttemptSpec (args : list Prim) (w : World) : Completion Flow * World -> Prop :=
| attempt_resolved w' :
    task (config (this w)) args (taskCalls w) = Resolved ->
    this w' = this (withState (began (state (this w))) w) ->
    taskCalls w' = S (taskCalls w) ->
    reflectionCalls w' = reflectionCalls w ->
    trace w' = trace w ++ callsBefore args (state (this w))
                 ++ [(Emit (Success (attempts (state (this w)) + 1)), began (state (this w)))] ->
    AttemptSpec args w (Normal Return, w')
| attempt_unhandled e w' :
    task (config (this w)) args (taskCalls w) = Rejected e ->
    listenerCount (this w) error = O ->
    this w' = this (withState (failed e (state (this w))) w) ->
    taskCalls w' = S (taskCalls w) ->
    reflectionCalls w' = reflectionCalls w ->
    trace w' = trace w ++ callsBefore args (state (this w))
                 ++ callsRejected e (state (this w)) ->
    AttemptSpec args w (Throw (ErrUnhandledError (attempts (state (this w)) + 1) e), w')
| attempt_backoff e w' :
    task (config (this w)) args (taskCalls w) = Rejected e ->
    listenerCount (this w) error <> O ->
    Z.of_nat (List.length (errors (state (this w)))) + 1 < errorThreshold (config (this w)) ->
    this w' = this (withState (failed e (state (this w))) w) ->
    taskCalls w' = S (taskCalls w) ->
    reflectionCalls w' = reflectionCalls w ->
    trace w' = trace w ++ callsBefore args (state (this w))
                 ++ callsRejected e (state (this w))
                 ++ [(Sleep (backoffDelay (config (this w)) (failed e (state (this w)))),
                      failed e (state (this w)))] ->
    AttemptSpec args w (Normal Next, w')
| attempt_reflection e w' :
    task (config (this w)) args (taskCalls w) = Rejected e ->
    listenerCount (this w) error <> O ->
    errorThreshold (config (this w)) <= Z.of_nat (List.length (errors (state (this w)))) + 1 ->
    this w' = this (withState (reflecting (failed e (state (this w)))) w) ->
    taskCalls w' = S (taskCalls w) ->
    reflectionCalls w' = S (reflectionCalls w) ->
    trace w' = trace w ++ callsBefore args (state (this w))
                 ++ callsRejected e (state (this w))
                 ++ [(InvokeReflection (errors (failed e (state (this w)))),
                      reflecting (failed e (state (this w))));
                     reflectionOutcome
                       (onReflection (config (this w)) (errors (failed e (state (this w))))
                          (reflectionCalls w))
                       (reflecting (failed e (state (this w))))] ->
    AttemptSpec args w (Normal Next, w').

(** What [runTask] does with the way the loop ended. *)
Definition finish (r : Completion Flow * World) : Completion unit * World :=
  match r with
  | (Normal Return, w) => (Normal tt, w)
  | (Normal Next, w) => afterLoop w
  | (Throw e, w) => (Throw e, w)
  | (OutOfFuel, w) => (OutOfFuel, w)
  end.

(** The calls [runTask] makes when started in [w]: what it appends to the
    trace. *)
Definition callsOf (args : list Prim) (w : World) : list Obs :=
  skipn (List.length (trace w)) (trace (snd (runTask args w))).

(** * The vocabulary of the properties *)

(** The error the constructor throws. *)
Definition ConfigurationError : JsError :=
  Error "A valid task function must be provided." "".

(** The [task] option is present and invocable. *)
Definition hasTask (options : option Options) : bool :=
  match options with
  | Some o => is_function (opt_task o)
  | None => false
  end.

(** [attempts <= maxAttempts] and [errors.length <= attempts]. *)
Definition RunStateInv (c : Config) (s : RunState) : Prop :=
  attempts s <= maxAttempts c /\ Z.of_nat (List.length (errors s)) <= attempts s.

(** What a computation keeps: the configuration, and the invariant in every
    state it observes and in the state it ends in. *)
Definition KeepsInv (w : World) (r : World) : Prop :=
  config (this r) = config (this w)
  /\ RunStateInv (config (this w)) (state (this r))
  /\ exists calls,
      trace r = trace w ++ calls
      /\ Forall (fun o => RunStateInv (config (this w)) (snd o)) calls.

(** The async function rejects on every invocation. *)
Definition AlwaysRejects {A : Type} (f : AsyncFn A) : Prop :=
  forall a n, exists e, f a n = Rejected e.



(** Neither the strategy is invoked nor 'reflection' emitted. *)
Definition NoReflection (calls : list Obs) : Prop :=
  Forall (fun o => forall errs,
              fst o <> InvokeReflection errs /\ fst o <> Emit (Reflection errs)) calls.

(** The last three calls of a run whose strategy rejected with [re]. *)
Definition failedReflectionCalls (errs : list JsError) (re : JsError) (st : RunState)
  : list Obs :=
  [(InvokeReflection errs, st);
   (LoggerError (ReflectionFailed "Reflection phase failed" (message re) (stack re)), st);
   (Emit ReflectionExit, st)].

(** A run with a strategy that always rejects either never reaches the
    strategy, or ends with its invocation, the log record and
    'reflectionExit', returns normally and resets the state. *)
Definition ContainsFailedReflection (w : World) (r : Completion unit * World) : Prop :=
  exists calls,
    trace (snd r) = trace w ++ calls
    /\ (NoReflection calls
        \/ exists pre re st,
            calls = pre ++ failedReflectionCalls (errors st) re st
            /\ NoReflection pre
            /\ errorLoop st = true
            /\ onReflection (config (this w)) (errors st) (reflectionCalls w) = Rejected re
            /\ fst r = Normal tt
            /\ state (this (snd r)) = initialState).

(** Every element is related to the one that follows it. *)
Fixpoint Consecutive {A : Type} (R : A -> A -> Prop) (l : list A) : Prop :=
  match l with
  | [] => True
  | a :: tl =>
      match tl with
      | [] => True
      | b :: _ => R a b /\ Consecutive R tl
      end
  end.

(** What two calls in a row require of each other: a delay directly follows
    the 'error' notification of the attempt counted in its state; an attempt
    that is not the first call of the run directly follows the delay computed
    in the state of the attempt before; what follows an 'error' notification
    is the delay of its state below the threshold and the strategy from the
    threshold on; and once [errorLoop] is set it stays set. *)
Definition Paced (c : Config) (prev cur : Obs) : Prop :=
  match fst cur with
  | Sleep _ => exists e, prev = (Emit (ErrorEvent (attempts (snd cur)) e), snd cur)
  | Emit (BeforeAttempt k) =>
      exists st, prev = (Sleep (backoffDelay c st), st) /\ attempts st + 1 = k
  | _ => True
  end
  /\ match fst prev with
     | Emit (ErrorEvent _ _) =>
         (Z.of_nat (List.length (errors (snd prev))) < errorThreshold c ->
          cur = (Sleep (backoffDelay c (snd prev)), snd prev))
         /\ (errorThreshold c <= Z.of_nat (List.length (errors (snd prev))) ->
             cur = (InvokeReflection (errors (snd prev)), reflecting (snd prev)))
     | _ => True
     end
  /\ (errorLoop (snd prev) = true -> errorLoop (snd cur) = true).

(** What a call requires of the state it is made in: a delay is the backoff
    delay of that state, where [errorLoop] is unset, every attempt so far has
    failed and the threshold is not reached; the strategy is invoked with
    [errorLoop] set. *)
Definition WellTimed (c : Config) (o : Obs) : Prop :=
  match fst o with
  | Sleep d =>
      d = backoffDelay c (snd o)
      /\ errorLoop (snd o) = false
      /\ Z.of_nat (List.length (errors (snd o))) = attempts (snd o)
      /\ 1 <= attempts (snd o)
      /\ attempts (snd o) < errorThreshold c
  | Emit (ErrorEvent k _) =>
      k = attempts (snd o)
      /\ Z.of_nat (List.length (errors (snd o))) = attempts (snd o)
  | InvokeReflection _ => errorLoop (snd o) = true
  | _ => True
  end.

(** The first call, if there is one, is not a delay. *)
Definition StartsWithoutSleep (calls : list Obs) : Prop :=
  match calls with
  | (Sleep _, _) :: _ => False
  | _ => True
  end.

(** The calls satisfy [Paced] pairwise, [WellTimed] one by one, and do not
    begin with a delay. *)
Definition Scheduled (c : Config) (calls : list Obs) : Prop :=
  Consecutive (Paced c) calls /\ Forall (WellTimed c) calls /\ StartsWithoutSleep calls.

(** The calls so far are empty or end with the delay computed in [s]. *)
Definition EndsWithDelay (c : Config) (s : RunState) (calls : list Obs) : Prop :=
  calls = [] \/ exists pre, calls = pre ++ [(Sleep (backoffDelay c s), s)].

(** [initialDelay * backoffFactor ^ (k - 1)] *)
Definition delayAfter (c : Config) (k : Z) : Q :=
  Qmult (initialDelay c) (Qpower (backoffFactor c) (k - 1)).

(** The backoff schedule of the calls of one run:
    - a delay directly follows the 'error' notification of a failed attempt
      [k]; that attempt is the [k]-th failure, [k] is below the threshold,
      and the delay is [initialDelay * backoffFactor ^ (k - 1)];
    - whatever directly follows the 'error' notification of the [k]-th
      failure is that delay when [k] is below the threshold, and the
      invocation of the strategy otherwise;
    - an attempt [k + 1] that has a call before it directly follows the delay
      [initialDelay * backoffFactor ^ (k - 1)];
    - the run does not begin with a delay and nothing precedes attempt 1;
    - no delay follows the invocation of the reflection strategy. *)
Definition BackoffSchedule (c : Config) (calls : list Obs) : Prop :=
  (forall pre prev d st post,
      calls = pre ++ prev :: (Sleep d, st) :: post ->
      (exists e, prev = (Emit (ErrorEvent (attempts st) e), st))
      /\ Z.of_nat (List.length (errors st)) = attempts st
      /\ attempts st < errorThreshold c
      /\ d = delayAfter c (attempts st))
  /\ (forall pre k e st next post,
         calls = pre ++ (Emit (ErrorEvent k e), st) :: next :: post ->
         Z.of_nat (List.length (errors st)) = k
         /\ (k < errorThreshold c -> next = (Sleep (delayAfter c k), st))
         /\ (errorThreshold c <= k -> next = (InvokeReflection (errors st), reflecting st)))
  /\ (forall pre prev k st post,
         calls = pre ++ prev :: (Emit (BeforeAttempt (k + 1)), st) :: post ->
         1 <= k /\ exists st', prev = (Sleep (delayAfter c k), st'))
  /\ (forall d st post, calls <> (Sleep d, st) :: post)
  /\ (forall pre st post, calls = pre ++ (Emit (BeforeAttempt 1), st) :: post -> pre = [])
  /\ (forall pre errs st post,
         calls = pre ++ (InvokeReflection errs, st) :: post ->
         forall d st', ~ In (Sleep d, st') post).

(** * Instances the properties are evaluated on *)

(** [jest.fn().mockResolvedValue("Success")] *)
Definition resolving : AsyncFn (list Prim) := fun _ _ => Resolved.

(** [jest.fn().mockRejectedValue(new Error("Test Error"))] *)
Definition rejecting : AsyncFn (list Prim) :=
  fun _ _ => Rejected (Error "Test Error" "").

(** A reflection strategy that always rejects. *)
Definition failingStrategy : AsyncFn (list JsError) :=
  fun _ _ => Rejected (Error "Strategy failed" "").

(** The options of the repository's tests: a task and the two bounds. *)
Definition testOptions (t : AsyncFn (list Prim)) (mx th : Z) : Options :=
  {| opt_task := Function t;
     opt_maxAttempts := Some mx;
     opt_errorThreshold := Some th;
     opt_backoffFactor := None;
     opt_initialDelay := None;
     opt_onReflection := None;
     opt_logFile := Some "./logs/test.log"%string |}.

(** The instance [new IzanamiAlgorithm(options)] when construction succeeds
    (the argument otherwise). *)
Definition instanceOr (d : Izanami) (r : JsError + Izanami) : Izanami :=
  match r with
  | inr iz => iz
  | inl _ => d
  end.

(** The instance of the test 'should execute task successfully without
    errors'. *)
Definition successInstance : Izanami :=
  {| listenerCount := fun _ => 0%nat;
     config := {| task := resolving; maxAttempts := 3; errorThreshold := 2;
                  backoffFactor := 2 # 1; initialDelay := 1000 # 1;
                  onReflection := defaultReflection;
                  logFile := "./logs/test.log" |};
     state := initialState |}.

(** The instance of the tests whose task always rejects, after
    [izanami.on('error', listener)]. *)
Definition listeningInstance (mx th : Z) : Izanami :=
  on error (instanceOr successInstance (constructor (Some (testOptions rejecting mx th)))).

(** An instance whose task and strategy both reject, with a listener for
    'error'. *)
Definition brokenReflectionInstance : Izanami :=
  on error
    (instanceOr successInstance
       (constructor (Some {| opt_task := Function rejecting;
                             opt_maxAttempts := Some 3;
                             opt_errorThreshold := Some 1;
                             opt_backoffFactor := None;
                             opt_initialDelay := None;
                             opt_onReflection := Some failingStrategy;
                             opt_logFile := None |}))).

(** * Reasoning about one pass of the loop *)

Arguments backoffDelay : simpl never.

Lemma length_snoc {A : Type} (l : list A) (a : A) :
  Z.of_nat (List.length (l ++ [a])) = Z.of_nat (List.length l) + 1.
Proof. rewrite length_app; simpl; lia. Qed.

Ltac trace_eq :=
  unfold began, failed, reflecting, callsBefore, callsRejected, reflectionOutcome;
  simpl; rewrite <- ?app_assoc; reflexivity.

Lemma attempt_spec (args : list Prim) (w : World) : AttemptSpec args w (attempt args w).
Proof.
  unfold attempt, bind, try_catch, getState, getConfig, setState, emit, awaitTask,
    loggerError, sleep, observe, ret; simpl.
  destruct (task (config (this w)) args (taskCalls w)) as [|e] eqn:Ht; simpl.
  - apply attempt_resolved; auto; simpl.
    trace_eq.
  - destruct (listenerCount (this w) error) as [|n] eqn:Hl; simpl.
    + apply attempt_unhandled; auto; simpl.
      trace_eq.
    + destruct (errorThreshold (config (this w))
                <=? Z.of_nat (List.length (errors (state (this w)) ++ [e]))) eqn:Hthr.
      * apply Z.leb_le in Hthr. rewrite length_snoc in Hthr.
        unfold enterReflectionPhase, bind, try_catch, getState, setState, awaitReflection,
          emit, loggerError, observe, ret; simpl.
        destruct (onReflection (config (this w)) (errors (state (this w)) ++ [e])
                    (reflectionCalls w)) as [|re] eqn:Hr; simpl.
        -- apply attempt_reflection with (e := e); auto; try (rewrite Hl; discriminate); simpl.
           rewrite Hr. trace_eq.
        -- apply attempt_reflection with (e := e); auto; try (rewrite Hl; discriminate); simpl.
           rewrite Hr. trace_eq.
      * apply Z.leb_gt in Hthr. rewrite length_snoc in Hthr.
        apply attempt_backoff with (e := e); auto; try (rewrite Hl; discriminate); simpl.
        trace_eq.
Qed.

Lemma attempt_frame (args : list Prim) (w w' : World) (r : Completion Flow) :
  attempt args w = (r, w') ->
  config (this w') = config (this w)
  /\ listenerCount (this w') = listenerCount (this w)
  /\ attempts (state (this w')) = attempts (state (this w)) + 1
  /\ r <> OutOfFuel.
Proof.
  intros H. pose proof (attempt_spec args w) as S. rewrite H in S.
  inversion S; subst;
    match goal with Hthis : this w' = _ |- _ => rewrite Hthis end;
    simpl; repeat split; discriminate.
Qed.

(** * Reasoning about the loop *)

Lemma while_unfold (fuel : nat) (args : list Prim) (w : World) :
  while fuel args w =
  if loopCond w then
    match fuel with
    | O => (OutOfFuel, w)
    | S fuel' =>
        match attempt args w with
        | (Normal Return, w') => (Normal Return, w')
        | (Normal Next, w') => while fuel' args w'
        | (Throw e, w') => (Throw e, w')
        | (OutOfFuel, w') => (OutOfFuel, w')
        end
    end
  else (Normal Next, w).
Proof.
  destruct fuel; simpl; unfold bind, getState, getConfig, loopCond; simpl;
    destruct (_ && _); try reflexivity.
  destruct (attempt args w) as [[[|]| |] w']; reflexivity.
Qed.

Lemma loopCond_true (w : World) :
  loopCond w = true <->
  attempts (state (this w)) < maxAttempts (config (this w))
  /\ errorLoop (state (this w)) = false.
Proof.
  unfold loopCond. rewrite andb_true_iff, Z.ltb_lt, negb_true_iff. tauto.
Qed.

Lemma loopCond_false (w : World) :
  loopCond w = false <->
  maxAttempts (config (this w)) <= attempts (state (this w))
  \/ errorLoop (state (this w)) = true.
Proof.
  unfold loopCond. rewrite andb_false_iff, Z.ltb_ge, negb_false_iff. tauto.
Qed.

(** * Reasoning about [runTask] *)

Lemma runTaskFuel_finish (fuel : nat) (args : list Prim) (w : World) :
  runTaskFuel fuel args w = finish (while fuel args w).
Proof.
  unfold runTaskFuel, bind, finish.
  destruct (while fuel args w) as [[[|]| |] w']; reflexivity.
Qed.

Lemma afterLoop_reflecting (w : World) :
  errorLoop (state (this w)) = true ->
  afterLoop w = (Normal tt, withState initialState (observed (Emit ReflectionExit) w)).
Proof.
  intros H. unfold afterLoop, bind, getState, emit, reset, setState; simpl.
  now rewrite H.
Qed.

Lemma afterLoop_failure (w : World) :
  errorLoop (state (this w)) = false ->
  afterLoop w = (Normal tt, observed (Emit (Failure (errors (state (this w))))) w).
Proof.
  intros H. unfold afterLoop, bind, getState, emit, ret; simpl.
  now rewrite H.
Qed.

(** The loop of [runTask], one pass at a time. *)
Lemma runTask_unfold (args : list Prim) (w : World) :
  runTask args w =
  if loopCond w then
    match attempt args w with
    | (Normal Return, w') => (Normal tt, w')
    | (Normal Next, w') => runTask args w'
    | (Throw e, w') => (Throw e, w')
    | (OutOfFuel, w') => (OutOfFuel, w')
    end
  else afterLoop w.
Proof.
  unfold runTask. rewrite runTaskFuel_finish, while_unfold.
  destruct (loopCond w) eqn:Hc; [|reflexivity].
  apply loopCond_true in Hc as [Hlt _].
  destruct (Z.to_nat (maxAttempts (config (this w)) - attempts (state (this w))))
    as [|fuel] eqn:Hfuel; [lia|].
  destruct (attempt args w) as [[[|]| |] w'] eqn:Ha; try reflexivity.
  rewrite runTaskFuel_finish.
  apply attempt_frame in Ha as (Hcfg & _ & Hat & _).
  rewrite Hcfg, Hat.
  replace (Z.to_nat (maxAttempts (config (this w)) - (attempts (state (this w)) + 1)))
    with fuel by lia.
  reflexivity.
Qed.

Section RunInduction.

Variable args : list Prim.
Variable P : World -> Completion unit * World -> Prop.

Hypothesis P_exit : forall w, loopCond w = false -> P w (afterLoop w).
Hypothesis P_return :
  forall w w', loopCond w = true -> attempt args w = (Normal Return, w') ->
               P w (Normal tt, w').
Hypothesis P_throw :
  forall w e w', loopCond w = true -> attempt args w = (Throw e, w') ->
                 P w (Throw e, w').
Hypothesis P_next :
  forall w w', loopCond w = true -> attempt args w = (Normal Next, w') ->
               P w' (runTask args w') -> P w (runTask args w').

Lemma runTask_ind (w : World) : P w (runTask args w).
Proof.
  remember (Z.to_nat (maxAttempts (config (this w)) - attempts (state (this w))))
    as n eqn:Hn.
  revert w Hn. induction n as [|n IH]; intros w Hn;
    rewrite runTask_unfold; destruct (loopCond w) eqn:Hc; auto.
  - apply loopCond_true in Hc. lia.
  - destruct (attempt args w) as [[[|]| |] w'] eqn:Ha; auto.
    + apply P_next; auto. apply IH.
      apply attempt_frame in Ha as (Hcfg & _ & Hat & _).
      apply loopCond_true in Hc. rewrite Hcfg, Hat. lia.
    + apply attempt_frame in Ha as (_ & _ & _ & Hne). now elim Hne.
Qed.

End RunInduction.

(** * Construction *)

Lemma constructor_cases (options : option Options) :
  (hasTask options = false /\ constructor options = inl ConfigurationError)
  \/ (hasTask options = true
      /\ exists iz, constructor options = inr iz /\ state iz = initialState).
Proof.
  unfold constructor, hasTask, ConfigurationError.
  destruct options as [o|]; [destruct (opt_task o) as [p|f|]|]; simpl; eauto.
Qed.

(** C7.  Construction throws, and then it is the configuration error and no
    instance is produced, exactly when the options or the task are absent or
    the task is not a function; with a function as task it produces an
    instance in its initial state. *)
Theorem constructor_throws_iff_no_task (options : option Options) :
  (constructor options = inl ConfigurationError <-> hasTask options = false)
  /\ ((exists e, constructor options = inl e) <-> hasTask options = false)
  /\ ((exists iz, constructor options = inr iz /\ state iz = initialState)
      <-> hasTask options = true).
Proof.
  destruct (constructor_cases options) as [[Hn Hc] | [Hy [iz [Hc Hs]]]];
    rewrite Hc.
  - rewrite Hn. repeat split; eauto.
    + intros [iz [H _]]. discriminate H.
    + discriminate.
  - rewrite Hy. repeat split; eauto; try discriminate.
    intros [e H]. discriminate H.
Qed.

(** C2.  A supplied [initialDelay] of 0 is falsy, so the constructor replaces
    it by the default 1000, whatever the other options are. *)
Theorem constructor_zero_initialDelay_becomes_default
  (f : AsyncFn (list Prim)) (mx th : option Z) (bf : option Q)
  (r : option (AsyncFn (list JsError))) (lf : option string) :
  exists iz,
    constructor (Some {| opt_task := Function f;
                         opt_maxAttempts := mx;
                         opt_errorThreshold := th;
                         opt_backoffFactor := bf;
                         opt_initialDelay := Some (0 # 1);
                         opt_onReflection := r;
                         opt_logFile := lf |}) = inr iz
    /\ initialDelay (config iz) = 1000 # 1.
Proof. eexists; split; reflexivity. Qed.

(** * A task that always succeeds *)

(** C4.  On a fresh instance whose task resolves on every invocation,
    [runTask] returns normally after one invocation of the task; the calls it
    makes are exactly 'beforeAttempt' with 1, the task, and 'success' with 1,
    so the logger is never called; the state is left at one attempt, not
    reset. *)
Theorem runTask_success_first_attempt (w : World) (args : list Prim) :
  state (this w) = initialState ->
  0 < maxAttempts (config (this w)) ->
  (forall a n, task (config (this w)) a n = Resolved) ->
  let s1 := {| attempts := 1; errors := []; errorLoop := false |} in
  exists w',
    runTask args w = (Normal tt, w')
    /\ taskCalls w' = S (taskCalls w)
    /\ trace w' = trace w ++ [(Emit (BeforeAttempt 1), s1);
                              (InvokeTask args, s1);
                              (Emit (Success 1), s1)]
    /\ (forall entry st, ~ In (LoggerError entry, st)
                           (skipn (List.length (trace w)) (trace w')))
    /\ state (this w') = s1.
Proof.
  intros Hs Hmax Hok s1.
  unfold runTask. rewrite runTaskFuel_finish, while_unfold.
  assert (Hc : loopCond w = true) by (apply loopCond_true; rewrite Hs; simpl; lia).
  rewrite Hc.
  destruct (Z.to_nat (maxAttempts (config (this w)) - attempts (state (this w))))
    as [|fuel] eqn:Hfuel; [rewrite Hs in Hfuel; simpl in Hfuel; lia|].
  pose proof (attempt_spec args w) as S.
  inversion S as [w' Ht Hthis Hcalls Hrc Htr Hr | e w' Ht | e w' Ht | e w' Ht];
    try (rewrite Hok in Ht; discriminate).
  simpl. exists w'. rewrite Hs in Hthis, Htr. simpl in Hthis, Htr.
  repeat split; auto.
  - intros entry st Hin. rewrite Htr, skipn_app, skipn_all, Nat.sub_diag in Hin.
    simpl in Hin. intuition discriminate.
  - rewrite Hthis. reflexivity.
Qed.

Lemma runTask_success_first_attempt_witness :
  constructor (Some (testOptions resolving 3 2)) = inr successInstance
  /\ exists w',
      runTask [] (start successInstance) = (Normal tt, w')
      /\ taskCalls w' = 1%nat
      /\ trace w' = [(Emit (BeforeAttempt 1),
                      {| attempts := 1; errors := []; errorLoop := false |});
                     (InvokeTask [],
                      {| attempts := 1; errors := []; errorLoop := false |});
                     (Emit (Success 1),
                      {| attempts := 1; errors := []; errorLoop := false |})]
      /\ (forall entry st, ~ In (LoggerError entry, st) (skipn 0 (trace w')))
      /\ state (this w') = {| attempts := 1; errors := []; errorLoop := false |}.
Proof.
  split; [reflexivity|].
  apply (runTask_success_first_attempt (start successInstance) []);
    [reflexivity | simpl; lia | reflexivity].
Defined.

(** * The invariant of the run state *)

Lemma KeepsInv_trans (w1 w2 w3 : World) :
  KeepsInv w1 w2 -> KeepsInv w2 w3 -> KeepsInv w1 w3.
Proof.
  intros (Hc1 & Hi1 & calls1 & Ht1 & Hf1) (Hc2 & Hi2 & calls2 & Ht2 & Hf2).
  rewrite Hc1 in *. repeat split; try apply Hi2; try congruence.
  exists (calls1 ++ calls2). split.
  - rewrite Ht2, Ht1. now rewrite app_assoc.
  - apply Forall_app. now split.
Qed.

Ltac invert_attempt args w Ha :=
  let S := fresh "S" in
  pose proof (attempt_spec args w) as S; rewrite Ha in S; inversion S; subst; clear S.

(** One pass of the loop, entered with [attempts < maxAttempts], keeps the
    invariant: the counter is incremented once and at most one error is
    appended. *)
Lemma attempt_keeps_inv (args : list Prim) (w w' : World) (r : Completion Flow) :
  loopCond w = true ->
  RunStateInv (config (this w)) (state (this w)) ->
  attempt args w = (r, w') ->
  KeepsInv w w'.
Proof.
  intros Hc [Hmax Hlen] Ha. apply loopCond_true in Hc as [Hlt _].
  assert (Hb : RunStateInv (config (this w)) (began (state (this w))))
    by (unfold RunStateInv; simpl; lia).
  assert (Hf : forall e, RunStateInv (config (this w)) (failed e (state (this w))))
    by (intros e; unfold RunStateInv; simpl; rewrite length_snoc; lia).
  assert (Hr : forall e, RunStateInv (config (this w))
                           (reflecting (failed e (state (this w)))))
    by (intros e; apply Hf).
  invert_attempt args w Ha;
    match goal with Hthis : this w' = _, Htr : trace w' = _ |- _ =>
      unfold KeepsInv; rewrite Hthis, Htr; simpl;
      (split; [reflexivity|split; [first [apply Hb | apply Hf]|]]);
      eexists; (split; [reflexivity|])
    end;
    unfold callsBefore, callsRejected; simpl;
    repeat first [apply Forall_nil | apply Forall_cons]; simpl;
    try apply Hb; try apply Hf.
  destruct (onReflection _ _ _); simpl; apply Hf.
Qed.

Lemma afterLoop_keeps_inv (w : World) :
  RunStateInv (config (this w)) (state (this w)) ->
  KeepsInv w (snd (afterLoop w)).
Proof.
  intros Hi. destruct (errorLoop (state (this w))) eqn:He.
  - rewrite afterLoop_reflecting by assumption. unfold KeepsInv; simpl.
    split; [reflexivity|split].
    + destruct Hi; unfold RunStateInv; simpl; lia.
    + eexists; split; [reflexivity|].
      apply Forall_cons; [exact Hi | apply Forall_nil].
  - rewrite afterLoop_failure by assumption. unfold KeepsInv; simpl.
    split; [reflexivity|split; [exact Hi|]].
    eexists; split; [reflexivity|].
    apply Forall_cons; [exact Hi | apply Forall_nil].
Qed.

Lemma runTask_keeps_inv (args : list Prim) (w : World) :
  RunStateInv (config (this w)) (state (this w)) ->
  KeepsInv w (snd (runTask args w)).
Proof.
  apply (runTask_ind args
           (fun w r => RunStateInv (config (this w)) (state (this w)) ->
                       KeepsInv w (snd r))).
  - intros w0 _. apply afterLoop_keeps_inv.
  - intros w0 w' Hc Ha Hi. simpl. eapply attempt_keeps_inv; eauto.
  - intros w0 e w' Hc Ha Hi. simpl. eapply attempt_keeps_inv; eauto.
  - intros w0 w' Hc Ha IH Hi.
    pose proof (attempt_keeps_inv args w0 w' _ Hc Hi Ha) as K.
    apply KeepsInv_trans with (w2 := w'); auto.
    destruct K as (Hcfg & Hi' & _).
    assert (K' : KeepsInv w' (snd (runTask args w')))
      by (apply IH; now rewrite Hcfg).
    exact K'.
Qed.

(** C9.  With a non-negative [maxAttempts] the invariant
    [attempts <= maxAttempts /\ errors.length <= attempts] holds in the
    initial state, and [runTask] started in a state that satisfies it keeps
    the configuration and satisfies it in every state it observes and in the
    state it ends in. *)
Theorem runState_invariant (c : Config) :
  0 <= maxAttempts c ->
  RunStateInv c initialState
  /\ forall (w : World) (args : list Prim),
      config (this w) = c ->
      RunStateInv c (state (this w)) ->
      config (this (snd (runTask args w))) = c
      /\ RunStateInv c (state (this (snd (runTask args w))))
      /\ exists calls,
          trace (snd (runTask args w)) = trace w ++ calls
          /\ Forall (fun o => RunStateInv c (snd o)) calls.
Proof.
  intros Hmax. split.
  - unfold RunStateInv; simpl; lia.
  - intros w args Hc Hi. subst c.
    destruct (runTask_keeps_inv args w Hi) as (H1 & H2 & H3). auto.
Qed.

(** * How [runTask] can end *)

(** Entered with [errorLoop] already set, [runTask] skips the loop, emits
    'reflectionExit' and resets. *)
Lemma runTask_when_reflecting (args : list Prim) (w : World) :
  errorLoop (state (this w)) = true ->
  runTask args w = (Normal tt, withState initialState (observed (Emit ReflectionExit) w)).
Proof.
  intros H. rewrite runTask_unfold.
  assert (Hc : loopCond w = false) by (apply loopCond_false; auto).
  rewrite Hc. now apply afterLoop_reflecting.
Qed.



(** C8.  On an instance constructed with nothing but a task that rejects, and
    so with no listener for 'error', the first rejection makes
    [emit('error', ...)] throw inside the [catch] block: [runTask] does not
    return normally, it throws the unhandled 'error' event after one
    invocation of the task, with no retry and no escalation. *)
Theorem runTask_propagates_unhandled_error_event :
  exists iz w',
    constructor (Some {| opt_task := Function rejecting;
                         opt_maxAttempts := None;
                         opt_errorThreshold := None;
                         opt_backoffFactor := None;
                         opt_initialDelay := None;
                         opt_onReflection := None;
                         opt_logFile := None |}) = inr iz
    /\ runTask [] (start iz)
       = (Throw (ErrUnhandledError 1 (Error "Test Error" "")), w')
    /\ taskCalls w' = 1%nat
    /\ reflectionCalls w' = 0%nat
    /\ map fst (trace w')
       = [Emit (BeforeAttempt 1); InvokeTask [];
          LoggerError (AttemptFailed 1 "Test Error" "");
          Emit (ErrorEvent 1 (Error "Test Error" ""))].
Proof.
  eexists. eexists. split; [reflexivity|].
  split; [vm_compute; reflexivity|].
  repeat split.
Qed.

(** * A task that always fails *)



(** C3.  The repository's test 'should respect maxAttempts' constructs the
    instance with a task that always rejects, [maxAttempts = 4] and
    [errorThreshold = 5], and registers no listener.  On that instance the
    first rejection is thrown out of [runTask] as an unhandled 'error' event:
    the task is invoked once, not four times, and 'failure' is never
    emitted. *)
Theorem runTask_test_maxAttempts_aborts_on_first_rejection :
  exists iz w',
    constructor (Some (testOptions rejecting 4 5)) = inr iz
    /\ maxAttempts (config iz) = 4
    /\ errorThreshold (config iz) = 5
    /\ runTask [] (start iz)
       = (Throw (ErrUnhandledError 1 (Error "Test Error" "")), w')
    /\ taskCalls w' = 1%nat
    /\ (forall es st, ~ In (Emit (Failure es), st) (trace w'))
    /\ state (this w')
       = {| attempts := 1; errors := [Error "Test Error" ""]; errorLoop := false |}.
Proof.
  eexists. eexists. split; [reflexivity|].
  split; [reflexivity|]. split; [reflexivity|].
  split; [vm_compute; reflexivity|].
  split; [reflexivity|]. split; [|reflexivity].
  intros es st Hin. simpl in Hin.
  repeat (destruct Hin as [Hin | Hin]; [discriminate Hin|]). exact Hin.
Qed.



(** C1.  The repository's test 'should enter reflection phase after reaching
    error threshold' constructs the instance with a task that always
    rejects, [maxAttempts = 5] and [errorThreshold = 3], registers no
    listener and expects three invocations and [errorLoop] to be true after
    the run.  As constructed, the run is aborted by the unhandled 'error'
    event after one invocation; and with a listener for 'error' registered
    the task is invoked three times and the state is reset, but the reset
    clears [errorLoop] as well, so it is false after the run. *)
Theorem runTask_test_threshold_errorLoop_false_after_run :
  exists iz w1 w2,
    constructor (Some (testOptions rejecting 5 3)) = inr iz
    /\ runTask [] (start iz)
       = (Throw (ErrUnhandledError 1 (Error "Test Error" "")), w1)
    /\ taskCalls w1 = 1%nat
    /\ errorLoop (state (this w1)) = false
    /\ runTask [] (start (on error iz)) = (Normal tt, w2)
    /\ taskCalls w2 = 3%nat
    /\ state (this w2) = {| attempts := 0; errors := []; errorLoop := false |}.
Proof.
  eexists. eexists. eexists. split; [reflexivity|].
  split; [vm_compute; reflexivity|].
  split; [reflexivity|]. split; [reflexivity|].
  split; [vm_compute; reflexivity|].
  split; reflexivity.
Qed.

Lemma runState_invariant_witness :
  0 <= 4
  /\ RunStateInv (config (listeningInstance 4 5)) initialState
  /\ RunStateInv (config (listeningInstance 4 5))
       (state (this (snd (runTask [] (start (listeningInstance 4 5)))))).
Proof.
  split; [lia|].
  destruct (runState_invariant (config (listeningInstance 4 5))) as [H0 H1];
    [simpl; lia|].
  split; [exact H0|].
  apply (H1 (start (listeningInstance 4 5)) []); [reflexivity | exact H0].
Defined.

(** * The delay after the last attempt *)

(** X8.  With a listener registered for 'error': when the pass that brings
    [attempts] to [maxAttempts] fails below the threshold, [runTask] still
    awaits the backoff delay
    [initialDelay * backoffFactor ^ (maxAttempts - 1)] and only then emits
    'failure'; no attempt follows the delay. *)
Theorem runTask_sleeps_after_final_attempt (w : World) (args : list Prim) (e : JsError) :
  errorLoop (state (this w)) = false ->
  attempts (state (this w)) + 1 = maxAttempts (config (this w)) ->
  task (config (this w)) args (taskCalls w) = Rejected e ->
  Z.of_nat (List.length (errors (state (this w)))) + 1 < errorThreshold (config (this w)) ->
  listenerCount (this w) error <> O ->
  let c := config (this w) in
  let s1 := began (state (this w)) in
  let s2 := failed e (state (this w)) in
  exists w',
    runTask args w = (Normal tt, w')
    /\ state (this w') = s2
    /\ taskCalls w' = S (taskCalls w)
    /\ trace w'
       = trace w
           ++ [(Emit (BeforeAttempt (maxAttempts c)), s1);
               (InvokeTask args, s1);
               (LoggerError (AttemptFailed (maxAttempts c) (message e) (stack e)), s2);
               (Emit (ErrorEvent (maxAttempts c) e), s2);
               (Sleep (Qmult (initialDelay c)
                         (Qpower (backoffFactor c) (maxAttempts c - 1))), s2);
               (Emit (Failure (errors (state (this w)) ++ [e])), s2)].
Proof.
  intros He Hat Ht Hlen Hl c s1 s2.
  rewrite runTask_unfold.
  assert (Hc : loopCond w = true) by (apply loopCond_true; split; [lia | exact He]).
  rewrite Hc.
  destruct (attempt args w) as [r w1] eqn:Ha.
  invert_attempt args w Ha; try congruence; try contradiction; try lia.
  match goal with
  | H : task _ _ _ = Rejected ?e' |- _ => assert (e' = e) by congruence; subst e'
  end.
  match goal with
  | Hthis : this w1 = _, Hcalls : taskCalls w1 = _, Htr : trace w1 = _ |- _ =>
      assert (Hc1 : loopCond w1 = false)
        by (apply loopCond_false; left; rewrite Hthis; simpl; lia);
      assert (He1 : errorLoop (state (this w1)) = false)
        by (rewrite Hthis; exact He);
      rewrite runTask_unfold, Hc1, afterLoop_failure by exact He1;
      eexists; split; [reflexivity|];
      cbn [observed this state taskCalls trace];
      rewrite Hthis, Hcalls, Htr
  end.
  split; [reflexivity|]. split; [reflexivity|].
  unfold c, s1, s2, callsBefore, callsRejected, backoffDelay, failed, began, withState.
  cbn [this state config attempts errors errorLoop].
  rewrite <- Hat, <- !app_assoc.
  reflexivity.
Qed.

Lemma runTask_sleeps_after_final_attempt_witness :
  exists w',
    runTask [] (start (listeningInstance 1 2)) = (Normal tt, w')
    /\ state (this w')
       = {| attempts := 1; errors := [Error "Test Error" ""]; errorLoop := false |}
    /\ taskCalls w' = 1%nat
    /\ map fst (trace w')
       = [Emit (BeforeAttempt 1); InvokeTask [];
          LoggerError (AttemptFailed 1 "Test Error" "");
          Emit (ErrorEvent 1 (Error "Test Error" ""));
          Sleep (Qmult (1000 # 1) (Qpower (2 # 1) (1 - 1)));
          Emit (Failure [Error "Test Error" ""])].
Proof.
  destruct (runTask_sleeps_after_final_attempt
              (start (listeningInstance 1 2)) [] (Error "Test Error" ""))
    as (w' & Hr & Hs & Hn & Htr);
    [reflexivity | reflexivity | reflexivity | simpl; lia | simpl; discriminate |].
  exists w'. split; [exact Hr|]. split; [exact Hs|]. split; [exact Hn|].
  rewrite Htr. reflexivity.
Defined.

(** C10.  On the instance the constructor returns for a task that always
    rejects, [maxAttempts = 1] and [errorThreshold = 2] (nothing listens for
    'error'), the first attempt is the final one and fails below the
    threshold; the 'error' notification is thrown out of the [catch] block
    as unhandled, so [runTask] throws: no delay is awaited and 'failure' is
    never emitted. *)
Theorem runTask_final_attempt_aborts_before_delay :
  exists iz w',
    constructor (Some (testOptions rejecting 1 2)) = inr iz
    /\ maxAttempts (config iz) = 1
    /\ errorThreshold (config iz) = 2
    /\ runTask [] (start iz)
       = (Throw (ErrUnhandledError 1 (Error "Test Error" "")), w')
    /\ attempts (state (this w')) = maxAttempts (config iz)
    /\ Z.of_nat (List.length (errors (state (this w')))) < errorThreshold (config iz)
    /\ (forall d st, ~ In (Sleep d, st) (trace w'))
    /\ (forall es st, ~ In (Emit (Failure es), st) (trace w')).
Proof.
  eexists. eexists. split; [reflexivity|].
  split; [reflexivity|]. split; [reflexivity|].
  split; [vm_compute; reflexivity|].
  split; [reflexivity|]. split; [reflexivity|].
  split; intros x st Hin; simpl in Hin;
    repeat (destruct Hin as [Hin | Hin]; [discriminate Hin|]); exact Hin.
Qed.

(** * The calls of one run *)

Lemma callsOf_eq (args : list Prim) (w : World) (calls : list Obs) :
  trace (snd (runTask args w)) = trace w ++ calls -> callsOf args w = calls.
Proof.
  intros H. unfold callsOf. rewrite H, skipn_app, skipn_all, Nat.sub_diag. reflexivity.
Qed.

(** * A reflection strategy that fails *)

Ltac no_reflection :=
  unfold NoReflection, callsBefore, callsRejected; simpl;
  repeat first [apply Forall_nil | apply Forall_cons]; simpl;
  intros; split; discriminate.

Lemma runTask_contains_failed_reflection (args : list Prim) (w : World) :
  AlwaysRejects (onReflection (config (this w))) ->
  ContainsFailedReflection w (runTask args w).
Proof.
  apply (runTask_ind args
    (fun w r => AlwaysRejects (onReflection (config (this w))) ->
                ContainsFailedReflection w r)); clear w.
  - intros w _ _. destruct (errorLoop (state (this w))) eqn:He.
    + rewrite afterLoop_reflecting by assumption.
      eexists. split; [reflexivity|]. left. no_reflection.
    + rewrite afterLoop_failure by assumption.
      eexists. split; [reflexivity|]. left. no_reflection.
  - intros w w' _ Ha _. invert_attempt args w Ha.
    eexists. split; [eassumption|]. left. no_reflection.
  - intros w e w' _ Ha _. invert_attempt args w Ha.
    eexists. split; [eassumption|]. left. no_reflection.
  - intros w w1 Hc Ha IH Hrej. invert_attempt args w Ha.
    + match goal with
      | Hthis : this w1 = _, Hrc : reflectionCalls w1 = _, Htr : trace w1 = _ |- _ =>
          destruct IH as (calls & Htr' & Hcalls);
          [rewrite Hthis; exact Hrej|];
          rewrite Hthis, Hrc in Hcalls; cbn [withState this config] in Hcalls;
          rewrite Htr in Htr'
      end.
      exists ((callsBefore args (state (this w)) ++ callsRejected e (state (this w))
                ++ [(Sleep (backoffDelay (config (this w)) (failed e (state (this w)))),
                     failed e (state (this w)))]) ++ calls).
      split; [rewrite Htr'; now rewrite <- !app_assoc|].
      destruct Hcalls as [Hno | (pre & re & st & Heq & Hno & Hrest)].
      * left. apply Forall_app. split; [no_reflection | exact Hno].
      * right.
        exists ((callsBefore args (state (this w)) ++ callsRejected e (state (this w))
                  ++ [(Sleep (backoffDelay (config (this w)) (failed e (state (this w)))),
                       failed e (state (this w)))]) ++ pre), re, st.
        split; [rewrite Heq; now rewrite <- !app_assoc|].
        split; [apply Forall_app; split; [no_reflection | exact Hno] | exact Hrest].
    + destruct (Hrej (errors (failed e (state (this w)))) (reflectionCalls w))
        as [re Hre].
      match goal with
      | Hthis : this w1 = _, Htr : trace w1 = _ |- _ =>
          rewrite runTask_when_reflecting by (now rewrite Hthis);
          unfold ContainsFailedReflection;
          cbn [snd fst withState observed this state trace];
          rewrite Hthis, Htr, Hre
      end.
      cbn [withState this state].
      exists ((callsBefore args (state (this w)) ++ callsRejected e (state (this w)))
                ++ failedReflectionCalls (errors (failed e (state (this w)))) re
                     (reflecting (failed e (state (this w))))).
      split; [trace_eq|]. right.
      exists (callsBefore args (state (this w)) ++ callsRejected e (state (this w))),
             re, (reflecting (failed e (state (this w)))).
      split; [reflexivity|]. split; [no_reflection|].
      split; [reflexivity|]. split; [exact Hre|]. split; reflexivity.
Qed.

(** C6.  With a reflection strategy that rejects whenever it is invoked, in
    every run that invokes it: [errorLoop] is already true in the state the
    strategy is invoked in; [runTask] returns normally; the calls of the run
    end with the invocation, the record 'Reflection phase failed' handed to
    the logger, and 'reflectionExit'; 'reflection' is never emitted; and the
    state the run ends in is the initial one. *)
Theorem failing_reflection_is_contained
  (w : World) (args : list Prim) (errs : list JsError) (st : RunState) :
  AlwaysRejects (onReflection (config (this w))) ->
  In (InvokeReflection errs, st) (callsOf args w) ->
  errorLoop st = true
  /\ errs = errors st
  /\ fst (runTask args w) = Normal tt
  /\ (exists pre re,
        onReflection (config (this w)) errs (reflectionCalls w) = Rejected re
        /\ callsOf args w
           = pre ++ [(InvokeReflection errs, st);
                     (LoggerError (ReflectionFailed "Reflection phase failed"
                                     (message re) (stack re)), st);
                     (Emit ReflectionExit, st)])
  /\ (forall es st', ~ In (Emit (Reflection es), st') (callsOf args w))
  /\ state (this (snd (runTask args w))) = initialState.
Proof.
  intros Hrej Hin.
  destruct (runTask_contains_failed_reflection args w Hrej)
    as (calls & Htr & [Hno | (pre & re & st0 & Heq & Hno & He & Hre & Hr & Hst)]);
    rewrite (callsOf_eq _ _ _ Htr) in *.
  - unfold NoReflection in Hno. rewrite Forall_forall in Hno.
    destruct (Hno _ Hin errs) as [H _]. now elim H.
  - unfold NoReflection in Hno. rewrite Forall_forall in Hno.
    assert (Hx : (InvokeReflection errs, st) = (InvokeReflection (errors st0), st0)).
    { subst calls. apply in_app_or in Hin as [Hin | Hin].
      - destruct (Hno _ Hin errs) as [H _]. now elim H.
      - simpl in Hin. destruct Hin as [Hin | [Hin | [Hin | []]]];
          [symmetry; exact Hin | discriminate Hin | discriminate Hin]. }
    inversion Hx; subst errs st0. clear Hx.
    repeat split; auto.
    + exists pre, re. split; [exact Hre | exact Heq].
    + intros es st' Hin'. subst calls. apply in_app_or in Hin' as [Hin' | Hin'].
      * destruct (Hno _ Hin' es) as [_ H]. now elim H.
      * simpl in Hin'. destruct Hin' as [Hin' | [Hin' | [Hin' | []]]]; discriminate Hin'.
Qed.

Lemma failing_reflection_is_contained_witness :
  let st := {| attempts := 1; errors := [Error "Test Error" ""]; errorLoop := true |} in
  errorLoop st = true
  /\ [Error "Test Error" ""] = errors st
  /\ fst (runTask [] (start brokenReflectionInstance)) = Normal tt
  /\ (exists pre re,
        onReflection (config (this (start brokenReflectionInstance)))
          [Error "Test Error" ""] 0%nat = Rejected re
        /\ callsOf [] (start brokenReflectionInstance)
           = pre ++ [(InvokeReflection [Error "Test Error" ""], st);
                     (LoggerError (ReflectionFailed "Reflection phase failed"
                                     (message re) (stack re)), st);
                     (Emit ReflectionExit, st)])
  /\ (forall es st', ~ In (Emit (Reflection es), st')
                       (callsOf [] (start brokenReflectionInstance)))
  /\ state (this (snd (runTask [] (start brokenReflectionInstance)))) = initialState.
Proof.
  apply (failing_reflection_is_contained (start brokenReflectionInstance) []).
  - intros a n. eexists. reflexivity.
  - vm_compute. do 4 right. left. reflexivity.
Defined.

(** * Consecutive calls *)

Section Consecutive.

Variable A : Type.
Variable R : A -> A -> Prop.

Lemma Consecutive_app (l1 l2 : list A) :
  Consecutive R l1 ->
  Consecutive R l2 ->
  (forall l1' a b l2', l1 = l1' ++ [a] -> l2 = b :: l2' -> R a b) ->
  Consecutive R (l1 ++ l2).
Proof.
  induction l1 as [|a [|a' l1] IH]; intros H1 H2 Hj.
  - exact H2.
  - destruct l2 as [|b l2]; [exact I|]. simpl. split; [|exact H2].
    apply (Hj [] a b l2); reflexivity.
  - destruct H1 as [Ha H1]. split; [exact Ha|].
    apply IH; auto. intros l1' x b l2' E1 E2.
    apply (Hj (a :: l1') x b l2'); [now rewrite E1 | exact E2].
Qed.

Lemma Consecutive_suffix (pre l : list A) :
  Consecutive R (pre ++ l) -> Consecutive R l.
Proof.
  induction pre as [|a pre IH]; intros H; [exact H|].
  apply IH. simpl in H. destruct (pre ++ l); [exact I | apply H].
Qed.

Lemma Consecutive_adjacent (pre post : list A) (a b : A) :
  Consecutive R (pre ++ a :: b :: post) -> R a b.
Proof. intros H. apply Consecutive_suffix in H. apply H. Qed.

Lemma Consecutive_closed (Q : A -> Prop) (a : A) (l : list A) :
  (forall x y, R x y -> Q x -> Q y) ->
  Consecutive R (a :: l) -> Q a -> Forall Q l.
Proof.
  intros Hq. revert a. induction l as [|b l IH]; intros a H Ha; constructor.
  - destruct H as [Hab _]. now apply (Hq a b).
  - destruct H as [Hab H]. apply (IH b); auto. now apply (Hq a b).
Qed.

End Consecutive.

(** * The backoff schedule *)

Lemma Scheduled_extend (c : Config) (s : RunState) (calls block : list Obs) :
  Scheduled c calls ->
  EndsWithDelay c s calls ->
  Scheduled c block ->
  (forall b rest, block = b :: rest -> Paced c (Sleep (backoffDelay c s), s) b) ->
  Scheduled c (calls ++ block).
Proof.
  intros (Hc & Hw & Hs) Hend (Hc' & Hw' & Hs') Hj. repeat split.
  - apply Consecutive_app; auto. intros l1' a b l2' E1 E2.
    destruct Hend as [Hnil | [pre Hpre]].
    + rewrite Hnil in E1. now destruct l1'.
    + rewrite Hpre in E1. apply app_inj_tail in E1 as [_ E1]. subst a.
      now apply (Hj b l2').
  - apply Forall_app. now split.
  - destruct calls as [|o calls]; [exact Hs' | exact Hs].
Qed.

Ltac scheduled :=
  unfold Scheduled, Paced, WellTimed, StartsWithoutSleep, callsBefore, callsRejected;
  simpl;
  repeat match goal with
         | |- _ /\ _ => split
         | |- Forall _ [] => apply Forall_nil
         | |- Forall _ (_ :: _) => apply Forall_cons
         | |- True => exact I
         | |- _ -> _ => intro
         | |- _ => progress simpl
         end;
  simpl in *;
  try congruence;
  try (eexists; reflexivity);
  try (eexists; split; reflexivity);
  try reflexivity;
  try (rewrite ?length_snoc in *; lia).

(** Started at the head of the loop with the calls made so far scheduled, a
    run's calls are scheduled. *)
Lemma runTask_scheduled_from (args : list Prim) (w : World) :
  forall t0 calls,
    trace w = t0 ++ calls ->
    errorLoop (state (this w)) = false ->
    Z.of_nat (List.length (errors (state (this w)))) = attempts (state (this w)) ->
    Scheduled (config (this w)) calls ->
    EndsWithDelay (config (this w)) (state (this w)) calls ->
    exists calls',
      trace (snd (runTask args w)) = t0 ++ calls'
      /\ Scheduled (config (this w)) calls'.
Proof.
  apply (runTask_ind args
    (fun w r =>
       forall t0 calls,
         trace w = t0 ++ calls ->
         errorLoop (state (this w)) = false ->
         Z.of_nat (List.length (errors (state (this w)))) = attempts (state (this w)) ->
         Scheduled (config (this w)) calls ->
         EndsWithDelay (config (this w)) (state (this w)) calls ->
         exists calls',
           trace (snd r) = t0 ++ calls' /\ Scheduled (config (this w)) calls')); clear w.
  - intros w _ t0 calls Ht He Hlen Hs Hend.
    rewrite afterLoop_failure by assumption. simpl. rewrite Ht.
    exists (calls ++ [(Emit (Failure (errors (state (this w)))), state (this w))]).
    split; [now rewrite app_assoc|].
    apply Scheduled_extend with (s := state (this w)); auto.
    + scheduled.
    + intros b rest E. inversion E; subst. scheduled.
  - intros w w' _ Ha t0 calls Ht He Hlen Hs Hend. invert_attempt args w Ha. simpl.
    match goal with Htr : trace w' = _ |- _ => rewrite Htr, Ht end.
    eexists. split; [rewrite <- app_assoc; reflexivity|].
    apply Scheduled_extend with (s := state (this w)); auto.
    + scheduled.
    + intros b rest E. inversion E; subst. scheduled.
  - intros w e w' _ Ha t0 calls Ht He Hlen Hs Hend. invert_attempt args w Ha. simpl.
    match goal with Htr : trace w' = _ |- _ => rewrite Htr, Ht end.
    eexists. split; [rewrite <- app_assoc; reflexivity|].
    apply Scheduled_extend with (s := state (this w)); auto.
    + scheduled.
    + intros b rest E. inversion E; subst. scheduled.
  - intros w w1 _ Ha IH t0 calls Ht He Hlen Hs Hend. invert_attempt args w Ha.
    + assert (Hblock :
        Scheduled (config (this w))
          (calls ++ callsBefore args (state (this w)) ++ callsRejected e (state (this w))
             ++ [(Sleep (backoffDelay (config (this w)) (failed e (state (this w)))),
                  failed e (state (this w)))])).
      { apply Scheduled_extend with (s := state (this w)); auto.
        - scheduled; try (rewrite length_snoc; lia).
        - intros b rest E. inversion E; subst. scheduled. }
      match goal with
      | Hthis : this w1 = _, Htr : trace w1 = _ |- _ =>
          destruct (IH t0 (calls ++ callsBefore args (state (this w))
                             ++ callsRejected e (state (this w))
                             ++ [(Sleep (backoffDelay (config (this w))
                                           (failed e (state (this w)))),
                                  failed e (state (this w)))]))
            as (calls' & Htr' & Hs');
          [ rewrite Htr, Ht; now rewrite <- app_assoc
          | rewrite Hthis; exact He
          | rewrite Hthis; simpl; rewrite length_snoc; lia
          | rewrite Hthis; exact Hblock
          | rewrite Hthis; right;
            exists (calls ++ callsBefore args (state (this w))
                      ++ callsRejected e (state (this w)));
            now rewrite <- !app_assoc
          | rewrite Hthis in Hs'; exists calls'; split; [exact Htr' | exact Hs'] ]
      end.
    + match goal with
      | Hthis : this w1 = _, Htr : trace w1 = _ |- _ =>
          rewrite runTask_when_reflecting by (now rewrite Hthis);
          cbn [snd withState observed this state trace];
          rewrite Hthis, Htr, Ht
      end.
      cbn [withState this state].
      exists (calls ++ (callsBefore args (state (this w))
                          ++ callsRejected e (state (this w))
                          ++ [(InvokeReflection (errors (failed e (state (this w)))),
                               reflecting (failed e (state (this w))));
                              reflectionOutcome
                                (onReflection (config (this w))
                                   (errors (failed e (state (this w))))
                                   (reflectionCalls w))
                                (reflecting (failed e (state (this w))));
                              (Emit ReflectionExit,
                               reflecting (failed e (state (this w))))])).
      split; [trace_eq|].
      apply Scheduled_extend with (s := state (this w)); auto.
      * destruct (onReflection _ _ _); scheduled.
      * intros b rest E. inversion E; subst. scheduled.
Qed.

Lemma Scheduled_BackoffSchedule (c : Config) (calls : list Obs) :
  Scheduled c calls -> BackoffSchedule c calls.
Proof.
  intros (Hc & Hw & Hs). rewrite Forall_forall in Hw.
  assert (Hbefore : forall pre prev k st post,
             calls = pre ++ prev :: (Emit (BeforeAttempt k), st) :: post ->
             exists st', prev = (Sleep (delayAfter c (k - 1)), st')
                         /\ attempts st' = k - 1 /\ 1 <= k - 1).
  { intros pre prev k st post E. rewrite E in Hc.
    apply Consecutive_adjacent in Hc as [[st' [Hp Hk]] _]. simpl in Hk.
    assert (Hin : In prev calls) by (rewrite E; apply in_or_app; right; now left).
    apply Hw in Hin. rewrite Hp in Hin. destruct Hin as (_ & _ & _ & H1 & _).
    simpl in H1. exists st'. split; [|lia].
    rewrite Hp. unfold backoffDelay, delayAfter.
    replace (k - 1 - 1) with (attempts st' - 1) by lia. reflexivity. }
  assert (Hin_mid : forall pre (o : Obs) post, calls = pre ++ o :: post -> WellTimed c o).
  { intros pre o post E. apply Hw. rewrite E. apply in_or_app. right. now left. }
  unfold BackoffSchedule.
  split; [|split; [|split; [|split; [|split]]]].
  - intros pre prev d st post E.
    assert (Hwt : WellTimed c (Sleep d, st))
      by (apply (Hin_mid (pre ++ [prev]) _ post); now rewrite <- app_assoc).
    destruct Hwt as (Hd & _ & Hlen & _ & Hlt). simpl in *.
    rewrite E in Hc. apply Consecutive_adjacent in Hc as [He _].
    split; [exact He|]. split; [exact Hlen|]. split; [exact Hlt|exact Hd].
  - intros pre k e st next post E.
    destruct (Hin_mid _ _ _ E) as [Hk Hlen]. simpl in *.
    rewrite E in Hc. apply Consecutive_adjacent in Hc as (_ & [Hlt Hge] & _).
    simpl in *. split; [lia|]. split.
    + intros H. rewrite Hlt by lia. unfold backoffDelay, delayAfter. now rewrite Hk.
    + intros H. apply Hge. lia.
  - intros pre prev k st post E.
    destruct (Hbefore _ _ _ _ _ E) as (st' & Hp & _ & Hk).
    split; [lia|]. exists st'. rewrite Hp. now replace (k + 1 - 1) with k by lia.
  - intros d st post E. rewrite E in Hs. exact Hs.
  - intros pre st post E.
    destruct pre as [|o pre _] using rev_ind; [reflexivity|].
    rewrite <- app_assoc in E. simpl in E.
    destruct (Hbefore _ _ _ _ _ E) as (st' & _ & _ & Hk). lia.
  - intros pre errs st post E d st' Hin.
    assert (Hst : errorLoop st = true) by (apply (Hin_mid _ _ _ E)).
    assert (Hsl : WellTimed c (Sleep d, st')).
    { apply Hw. rewrite E. apply in_or_app. right. now right. }
    destruct Hsl as (_ & Hfalse & _). simpl in Hfalse.
    rewrite E in Hc. apply Consecutive_suffix in Hc.
    apply Consecutive_closed with (Q := fun o => errorLoop (snd o) = true) in Hc;
      [ | intros x y (_ & _ & Hxy); exact Hxy | exact Hst ].
    rewrite Forall_forall in Hc. pose proof (Hc _ Hin) as Htrue. simpl in Htrue.
    congruence.
Qed.

(** C5.  In a run that starts in the initial state: every delay is awaited
    directly after the 'error' notification of the [k]-th failed attempt,
    with [k] below the threshold, and lasts
    [initialDelay * backoffFactor ^ (k - 1)]; attempt [k + 1] directly
    follows that delay; nothing, so no delay, precedes attempt 1; and no
    delay follows the invocation of the reflection strategy. *)
Theorem runTask_backoff_schedule (w : World) (args : list Prim) :
  state (this w) = initialState ->
  BackoffSchedule (config (this w)) (callsOf args w).
Proof.
  intros Hs.
  destruct (runTask_scheduled_from args w (trace w) []) as (calls & Htr & Hsch).
  - now rewrite app_nil_r.
  - now rewrite Hs.
  - now rewrite Hs.
  - repeat split. constructor.
  - now left.
  - rewrite (callsOf_eq _ _ _ Htr). now apply Scheduled_BackoffSchedule.
Qed.

Lemma runTask_backoff_schedule_witness :
  state (this (start (listeningInstance 5 3))) = initialState
  /\ map fst (callsOf [] (start (listeningInstance 5 3)))
     = [Emit (BeforeAttempt 1); InvokeTask [];
        LoggerError (AttemptFailed 1 "Test Error" "");
        Emit (ErrorEvent 1 (Error "Test Error" ""));
        Sleep (1000 # 1);
        Emit (BeforeAttempt 2); InvokeTask [];
        LoggerError (AttemptFailed 2 "Test Error" "");
        Emit (ErrorEvent 2 (Error "Test Error" ""));
        Sleep (2000 # 1);
        Emit (BeforeAttempt 3); InvokeTask [];
        LoggerError (AttemptFailed 3 "Test Error" "");
        Emit (ErrorEvent 3 (Error "Test Error" ""));
        InvokeReflection [Error "Test Error" ""; Error "Test Error" ""; Error "Test Error" ""];
        Emit (Reflection [Error "Test Error" ""; Error "Test Error" ""; Error "Test Error" ""]);
        Emit ReflectionExit]
  /\ BackoffSchedule (config (this (start (listeningInstance 5 3))))
       (callsOf [] (start (listeningInstance 5 3))).
Proof.
  split; [reflexivity|]. split; [vm_compute; reflexivity|].
  apply (runTask_backoff_schedule (start (listeningInstance 5 3)) []).
  reflexivity.
Defined.

(** * The three always-failing runs with a listener for 'error' *)





(** * Runs that cannot start an attempt *)

Lemma runTask_exhausted_eq (w : World) (args : list Prim) :
  maxAttempts (config (this w)) <= attempts (state (this w)) ->
  errorLoop (state (this w)) = false ->
  runTask args w = (Normal tt, observed (Emit (Failure (errors (state (this w))))) w).
Proof.
  intros Hmax He. rewrite runTask_unfold.
  assert (Hc : loopCond w = false) by (apply loopCond_false; now left).
  now rewrite Hc, afterLoop_failure by exact He.
Qed.

(** X4.  Started with [attempts] already at (or above) [maxAttempts] and
    [errorLoop] unset, as after a run that exhausted the attempts, [runTask]
    does not invoke the task: it returns normally after the single call
    'failure', carrying the error log as it stands, and changes nothing of
    the instance. *)
Theorem runTask_without_attempts_left (w : World) (args : list Prim) :
  maxAttempts (config (this w)) <= attempts (state (this w)) ->
  errorLoop (state (this w)) = false ->
  exists w',
    runTask args w = (Normal tt, w')
    /\ this w' = this w
    /\ taskCalls w' = taskCalls w
    /\ reflectionCalls w' = reflectionCalls w
    /\ trace w' = trace w ++ [(Emit (Failure (errors (state (this w)))), state (this w))].
Proof.
  intros Hmax He. rewrite runTask_exhausted_eq by assumption.
  eexists. split; [reflexivity|]. repeat split.
Qed.

(** A second [runTask] on the instance of the test 'should respect
    maxAttempts', after the run that exhausted its four attempts. *)
Lemma runTask_without_attempts_left_witness :
  let w1 := snd (runTask [] (start (listeningInstance 4 5))) in
  exists w',
    runTask [] w1 = (Normal tt, w')
    /\ this w' = this w1
    /\ taskCalls w' = taskCalls w1
    /\ reflectionCalls w' = reflectionCalls w1
    /\ trace w' = trace w1 ++ [(Emit (Failure (errors (state (this w1)))), state (this w1))].
Proof.
  apply (runTask_without_attempts_left
           (snd (runTask [] (start (listeningInstance 4 5)))) []).
  - apply Z.leb_le. vm_compute. reflexivity.
  - vm_compute. reflexivity.
Defined.

(** * What the constructor resolves *)

Lemma or_default_truthy {A : Type} (truthy : A -> bool) (v : option A) (d : A) :
  truthy d = true -> truthy (or_default truthy v d) = true.
Proof.
  intros Hd. unfold or_default. destruct v as [a|]; [|exact Hd].
  destruct (truthy a) eqn:Ha; [exact Ha | exact Hd].
Qed.

Lemma constructor_instance_fresh (options : option Options) (iz : Izanami) :
  constructor options = inr iz ->
  (forall name, listenerCount iz name = O) /\ state iz = initialState.
Proof.
  unfold constructor. destruct options as [o|]; [|discriminate].
  destruct (opt_task o) as [p|f|]; try discriminate.
  intros H. inversion H; subst; clear H. split; reflexivity.
Qed.

(** X5.  Whatever options it is given, an instance the constructor produces
    has no listener, is in the initial state, and has no falsy setting:
    [maxAttempts] and [errorThreshold] are not 0, [backoffFactor] and
    [initialDelay] are not equal to 0 and [logFile] is not empty. *)
Theorem constructor_never_resolves_falsy (options : option Options) (iz : Izanami) :
  constructor options = inr iz ->
  (forall name, listenerCount iz name = O)
  /\ state iz = initialState
  /\ maxAttempts (config iz) <> 0
  /\ errorThreshold (config iz) <> 0
  /\ ~ Qeq (backoffFactor (config iz)) 0
  /\ ~ Qeq (initialDelay (config iz)) 0
  /\ logFile (config iz) <> ""%string.
Proof.
  unfold constructor. destruct options as [o|]; [|discriminate].
  destruct (opt_task o) as [p|f|]; try discriminate.
  intros H. inversion H; subst; clear H. simpl.
  split; [reflexivity|]. split; [reflexivity|].
  assert (HZ : forall v d, truthyZ d = true -> or_default truthyZ v d <> 0).
  { intros v d Hd E. pose proof (or_default_truthy truthyZ v d Hd) as T.
    rewrite E in T. discriminate T. }
  assert (HQ : forall v d, truthyQ d = true -> ~ Qeq (or_default truthyQ v d) 0).
  { intros v d Hd E. pose proof (or_default_truthy truthyQ v d Hd) as T.
    change (negb (Qeq_bool (or_default truthyQ v d) 0) = true) in T.
    apply Qeq_bool_iff in E. rewrite E in T. discriminate T. }
  split; [now apply HZ|]. split; [now apply HZ|].
  split; [now apply HQ|]. split; [now apply HQ|].
  intros E. pose proof (or_default_truthy truthyString (opt_logFile o) defaultLogFile
                          eq_refl) as T.
  rewrite E in T. discriminate T.
Qed.

Lemma constructor_never_resolves_falsy_witness :
  let iz := instanceOr successInstance
              (constructor (Some {| opt_task := Function rejecting;
                                    opt_maxAttempts := Some 0;
                                    opt_errorThreshold := Some 0;
                                    opt_backoffFactor := Some (0 # 1);
                                    opt_initialDelay := Some (0 # 7);
                                    opt_onReflection := None;
                                    opt_logFile := Some ""%string |})) in
  (forall name, listenerCount iz name = O)
  /\ state iz = initialState
  /\ maxAttempts (config iz) <> 0
  /\ errorThreshold (config iz) <> 0
  /\ ~ Qeq (backoffFactor (config iz)) 0
  /\ ~ Qeq (initialDelay (config iz)) 0
  /\ logFile (config iz) <> ""%string.
Proof.
  apply (constructor_never_resolves_falsy
           (Some {| opt_task := Function rejecting;
                    opt_maxAttempts := Some 0;
                    opt_errorThreshold := Some 0;
                    opt_backoffFactor := Some (0 # 1);
                    opt_initialDelay := Some (0 # 7);
                    opt_onReflection := None;
                    opt_logFile := Some ""%string |})).
  reflexivity.
Defined.

(** The constructor validates nothing but the task: a supplied setting that
    is truthy is stored as it is, negative numbers included, and an absent
    one gets its default (5, 3, 2, 1000, [defaultReflection]). *)
Lemma constructor_keeps_truthy_settings (o : Options) (f : AsyncFn (list Prim)) :
  opt_task o = Function f ->
  exists iz,
    constructor (Some o) = inr iz
    /\ task (config iz) = f
    /\ (forall n, opt_maxAttempts o = Some n -> n <> 0 -> maxAttempts (config iz) = n)
    /\ (forall n, opt_errorThreshold o = Some n -> n <> 0 -> errorThreshold (config iz) = n)
    /\ (forall q, opt_backoffFactor o = Some q -> ~ Qeq q 0 -> backoffFactor (config iz) = q)
    /\ (forall q, opt_initialDelay o = Some q -> ~ Qeq q 0 -> initialDelay (config iz) = q)
    /\ (forall r, opt_onReflection o = Some r -> onReflection (config iz) = r)
    /\ (opt_maxAttempts o = None -> maxAttempts (config iz) = 5)
    /\ (opt_errorThreshold o = None -> errorThreshold (config iz) = 3)
    /\ (opt_backoffFactor o = None -> backoffFactor (config iz) = 2 # 1)
    /\ (opt_initialDelay o = None -> initialDelay (config iz) = 1000 # 1)
    /\ (opt_onReflection o = None -> onReflection (config iz) = defaultReflection).
Proof.
  intros Ht. unfold constructor. rewrite Ht. eexists. split; [reflexivity|]. simpl.
  assert (HZ : forall v d n, v = Some n -> n <> 0 -> or_default truthyZ v d = n).
  { intros v d n -> Hn. unfold or_default, truthyZ.
    destruct (n =? 0) eqn:E; [apply Z.eqb_eq in E; contradiction | reflexivity]. }
  assert (HQ : forall v d q, v = Some q -> ~ Qeq q 0 -> or_default truthyQ v d = q).
  { intros v d q -> Hq. unfold or_default, truthyQ.
    destruct (Qeq_bool q 0) eqn:E; [apply Qeq_bool_iff in E; contradiction | reflexivity]. }
  split; [reflexivity|].
  split; [intros; now apply HZ|]. split; [intros; now apply HZ|].
  split; [intros; now apply HQ|]. split; [intros; now apply HQ|].
  split; [intros r ->; reflexivity|].
  repeat split; intros ->; reflexivity.
Qed.

(** X6.  A negative [maxAttempts] is accepted by the constructor, and then
    [runTask] on the new instance never invokes the task: it returns
    normally after emitting 'failure' with an empty error list. *)
Theorem constructor_negative_maxAttempts_never_attempts
  (o : Options) (f : AsyncFn (list Prim)) (n : Z) (args : list Prim) :
  opt_task o = Function f ->
  opt_maxAttempts o = Some n ->
  n < 0 ->
  exists iz w',
    constructor (Some o) = inr iz
    /\ maxAttempts (config iz) = n
    /\ runTask args (start iz) = (Normal tt, w')
    /\ taskCalls w' = O
    /\ trace w' = [(Emit (Failure []), initialState)]
    /\ state (this w') = initialState.
Proof.
  intros Ht Hn Hneg.
  destruct (constructor_keeps_truthy_settings o f Ht) as (iz & Hc & _ & Hmax & _).
  pose proof (constructor_instance_fresh _ _ Hc) as (_ & Hs).
  specialize (Hmax n Hn ltac:(lia)).
  exists iz. eexists. split; [exact Hc|]. split; [exact Hmax|].
  split; [apply runTask_exhausted_eq; simpl; rewrite ?Hmax, Hs; simpl; [lia | reflexivity]|].
  simpl. rewrite Hs. repeat split.
Qed.

Lemma constructor_negative_maxAttempts_never_attempts_witness :
  exists iz w',
    constructor (Some (testOptions rejecting (-2) 3)) = inr iz
    /\ maxAttempts (config iz) = -2
    /\ runTask [] (start iz) = (Normal tt, w')
    /\ taskCalls w' = O
    /\ trace w' = [(Emit (Failure []), initialState)]
    /\ state (this w') = initialState.
Proof.
  apply (constructor_negative_maxAttempts_never_attempts
           (testOptions rejecting (-2) 3) rejecting (-2) []);
    [reflexivity | reflexivity | lia].
Defined.

(** * A new instance whose task rejects *)

(** X7.  On an instance fresh from the constructor (nothing listens for
    'error') with a positive [maxAttempts], a task whose first invocation
    rejects makes [runTask] throw the unhandled 'error' event: the task is
    invoked once, the error is logged and kept in the error log, and neither
    a delay nor the reflection strategy follows, whatever the threshold. *)
Theorem new_instance_throws_on_first_rejection
  (options : option Options) (iz : Izanami) (args : list Prim) (e : JsError) :
  constructor options = inr iz ->
  0 < maxAttempts (config iz) ->
  task (config iz) args 0%nat = Rejected e ->
  let s1 := {| attempts := 1; errors := []; errorLoop := false |} in
  let s2 := {| attempts := 1; errors := [e]; errorLoop := false |} in
  exists w',
    runTask args (start iz) = (Throw (ErrUnhandledError 1 e), w')
    /\ taskCalls w' = 1%nat
    /\ reflectionCalls w' = 0%nat
    /\ state (this w') = s2
    /\ trace w' = [(Emit (BeforeAttempt 1), s1);
                   (InvokeTask args, s1);
                   (LoggerError (AttemptFailed 1 (message e) (stack e)), s2);
                   (Emit (ErrorEvent 1 e), s2)].
Proof.
  intros Hc Hmax Ht s1 s2.
  pose proof (constructor_instance_fresh _ _ Hc) as (Hl & Hs).
  rewrite runTask_unfold.
  assert (Hcond : loopCond (start iz) = true)
    by (apply loopCond_true; simpl; rewrite Hs; simpl; split; [lia | reflexivity]).
  rewrite Hcond.
  destruct (attempt args (start iz)) as [r w1] eqn:Ha.
  invert_attempt args (start iz) Ha; simpl in *;
    try congruence;
    try (match goal with H : listenerCount iz error <> O |- _ => elim H; apply Hl end).
  match goal with
  | H : task _ _ _ = Rejected ?e' |- _ => assert (e' = e) by congruence; subst e'
  end.
  match goal with
  | Hthis : this w1 = _, Hcalls : taskCalls w1 = _, Hrc : reflectionCalls w1 = _,
    Htr : trace w1 = _ |- _ =>
      rewrite Hs in *; simpl in *;
      exists w1; rewrite Hthis, Hcalls, Hrc, Htr
  end.
  repeat split.
Qed.

Lemma new_instance_throws_on_first_rejection_witness :
  let iz := instanceOr successInstance (constructor (Some (testOptions rejecting 5 1))) in
  let e := Error "Test Error" "" in
  let s1 := {| attempts := 1; errors := []; errorLoop := false |} in
  let s2 := {| attempts := 1; errors := [e]; errorLoop := false |} in
  exists w',
    runTask [] (start iz) = (Throw (ErrUnhandledError 1 e), w')
    /\ taskCalls w' = 1%nat
    /\ reflectionCalls w' = 0%nat
    /\ state (this w') = s2
    /\ trace w' = [(Emit (BeforeAttempt 1), s1);
                   (InvokeTask [], s1);
                   (LoggerError (AttemptFailed 1 (message e) (stack e)), s2);
                   (Emit (ErrorEvent 1 e), s2)].
Proof.
  apply (new_instance_throws_on_first_rejection
           (Some (testOptions rejecting 5 1))
           (instanceOr successInstance (constructor (Some (testOptions rejecting 5 1))))
           [] (Error "Test Error" ""));
    [reflexivity | simpl; lia | reflexivity].
Defined.

(** * The shape of a run *)

(** The run state after the failed attempts [es], oldest first. *)
Definition stateAfter (s : RunState) (es : list JsError) : RunState :=
  fold_left (fun s e => failed e s) es s.

(** The calls of consecutive passes that fail with [es] and back off. *)
Fixpoint backoffCalls (c : Config) (args : list Prim) (s : RunState) (es : list JsError)
  : list Obs :=
  match es with
  | [] => []
  | e :: es' =>
      (callsBefore args s ++ callsRejected e s
         ++ [(Sleep (backoffDelay c (failed e s)), failed e s)])
        ++ backoffCalls c args (failed e s) es'
  end.

(** The ways a run ends: the loop is left with the attempts exhausted; it is
    never entered because [errorLoop] was already set; the task resolves; the
    'error' notification of a rejection is unhandled; or a rejection reaches
    the threshold and the strategy settles with [r]. *)
Inductive Ending : Type :=
| EndFailure
| EndResumedReflection
| EndSuccess
| EndUnhandled (e : JsError)
| EndReflection (e : JsError) (r : Settled).

Definition endingCalls (args : list Prim) (s : RunState) (k : Ending) : list Obs :=
  match k with
  | EndFailure => [(Emit (Failure (errors s)), s)]
  | EndResumedReflection => [(Emit ReflectionExit, s)]
  | EndSuccess => callsBefore args s ++ [(Emit (Success (attempts s + 1)), began s)]
  | EndUnhandled e => callsBefore args s ++ callsRejected e s
  | EndReflection e r =>
      callsBefore args s ++ callsRejected e s
        ++ [(InvokeReflection (errors (failed e s)), reflecting (failed e s));
            reflectionOutcome r (reflecting (failed e s));
            (Emit ReflectionExit, reflecting (failed e s))]
  end.

Definition endingState (s : RunState) (k : Ending) : RunState :=
  match k with
  | EndFailure => s
  | EndResumedReflection => initialState
  | EndSuccess => began s
  | EndUnhandled e => failed e s
  | EndReflection _ _ => initialState
  end.

Definition endingCompletion (s : RunState) (k : Ending) : Completion unit :=
  match k with
  | EndUnhandled e => Throw (ErrUnhandledError (attempts s + 1) e)
  | _ => Normal tt
  end.

Definition endingTaskCalls (k : Ending) : nat :=
  match k with
  | EndFailure | EndResumedReflection => 0
  | _ => 1
  end.

Definition endingReflectionCalls (k : Ending) : nat :=
  match k with
  | EndReflection _ _ => 1
  | _ => 0
  end.

(** When an ending applies, in the configuration [c], with the listeners of
    the instance, in the state [s] the loop is left or last entered in;
    [rc] is the number of earlier invocations of the strategy. *)
Definition endingApplies (c : Config) (listeners : nat) (rc : nat) (s : RunState)
  (k : Ending) : Prop :=
  match k with
  | EndFailure => maxAttempts c <= attempts s /\ errorLoop s = false
  | EndResumedReflection => errorLoop s = true
  | EndSuccess => attempts s < maxAttempts c /\ errorLoop s = false
  | EndUnhandled _ => attempts s < maxAttempts c /\ errorLoop s = false /\ listeners = O
  | EndReflection e r =>
      attempts s < maxAttempts c /\ errorLoop s = false /\ listeners <> O
      /\ errorThreshold c <= Z.of_nat (List.length (errors s)) + 1
      /\ r = onReflection c (errors (failed e s)) rc
  end.

(** A run of [runTask] from [w] with result [r]: failed attempts [es], each
    followed by its delay, then one ending [k]. *)
Definition RunShape (args : list Prim) (w : World) (r : Completion unit * World)
  (es : list JsError) (k : Ending) : Prop :=
  let c := config (this w) in
  let s := state (this w) in
  fst r = endingCompletion (stateAfter s es) k
  /\ config (this (snd r)) = c
  /\ listenerCount (this (snd r)) = listenerCount (this w)
  /\ state (this (snd r)) = endingState (stateAfter s es) k
  /\ taskCalls (snd r) = (taskCalls w + List.length es + endingTaskCalls k)%nat
  /\ reflectionCalls (snd r) = (reflectionCalls w + endingReflectionCalls k)%nat
  /\ trace (snd r) = trace w ++ backoffCalls c args s es ++ endingCalls args (stateAfter s es) k
  /\ endingApplies c (listenerCount (this w) error) (reflectionCalls w) (stateAfter s es) k
  /\ (es <> [] ->
      errorLoop s = false
      /\ listenerCount (this w) error <> O
      /\ Z.of_nat (List.length (errors s)) + Z.of_nat (List.length es) < errorThreshold c
      /\ attempts s + Z.of_nat (List.length es) <= maxAttempts c).

Lemma stateAfter_fields (es : list JsError) (s : RunState) :
  attempts (stateAfter s es) = attempts s + Z.of_nat (List.length es)
  /\ errors (stateAfter s es) = errors s ++ es
  /\ errorLoop (stateAfter s es) = errorLoop s.
Proof.
  revert s. induction es as [|e es IH]; intros s.
  - simpl. rewrite app_nil_r. repeat split. lia.
  - change (stateAfter s (e :: es)) with (stateAfter (failed e s) es).
    destruct (IH (failed e s)) as (Ha & He & Hl). rewrite Ha, He, Hl.
    simpl. rewrite <- app_assoc. repeat split. lia.
Qed.

Ltac shape_nil :=
  unfold RunShape; cbn [fst snd stateAfter fold_left backoffCalls List.length];
  rewrite ?Nat.add_0_r;
  (split; [|split; [|split; [|split; [|split; [|split; [|split; [|split]]]]]]]);
  [ .. | let E := fresh "E" in intros E; now elim E ].

Lemma runTask_has_shape (args : list Prim) (w : World) :
  exists es k, RunShape args w (runTask args w) es k.
Proof.
  apply (runTask_ind args (fun w r => exists es k, RunShape args w r es k)); clear w.
  - intros w Hc. exists []. destruct (errorLoop (state (this w))) eqn:He.
    + exists EndResumedReflection. rewrite afterLoop_reflecting by assumption.
      shape_nil; simpl; auto.
    + exists EndFailure. rewrite afterLoop_failure by assumption.
      apply loopCond_false in Hc as [Hc | Hc]; [|congruence].
      shape_nil; simpl; auto.
  - intros w w' Hc Ha. apply loopCond_true in Hc as [Hlt He].
    invert_attempt args w Ha. exists [], EndSuccess.
    match goal with
    | Hthis : this w' = _, Hcalls : taskCalls w' = _, Hrc : reflectionCalls w' = _,
      Htr : trace w' = _ |- _ =>
        shape_nil; simpl; rewrite ?Hthis, ?Hcalls, ?Hrc, ?Htr; simpl; auto; try lia
    end.
  - intros w e w' Hc Ha. apply loopCond_true in Hc as [Hlt He].
    invert_attempt args w Ha.
    match goal with
    | H : task _ _ _ = Rejected ?e' |- _ => exists [], (EndUnhandled e')
    end.
    match goal with
    | Hthis : this w' = _, Hcalls : taskCalls w' = _, Hrc : reflectionCalls w' = _,
      Htr : trace w' = _ |- _ =>
        shape_nil; simpl; rewrite ?Hthis, ?Hcalls, ?Hrc, ?Htr; simpl; auto; try lia
    end.
  - intros w w1 Hc Ha IH. apply loopCond_true in Hc as [Hlt He].
    invert_attempt args w Ha.
    + destruct IH as (es & k & Hk & Hcfg & Hls & Hst & Htc & Hrc & Htr & Hap & Hes).
      match goal with
      | Hthis : this w1 = _, Hcalls : taskCalls w1 = _, Hrc1 : reflectionCalls w1 = _,
        Htr1 : trace w1 = _ |- _ =>
          rewrite Hthis in *; rewrite Hcalls in Htc; rewrite Hrc1 in *;
          rewrite Htr1 in Htr;
          cbn [withState this state config listenerCount] in *
      end.
      exists (e :: es), k. unfold RunShape.
      change (stateAfter (state (this w)) (e :: es))
        with (stateAfter (failed e (state (this w))) es).
      split; [exact Hk|]. split; [exact Hcfg|]. split; [exact Hls|].
      split; [exact Hst|]. split; [rewrite Htc; simpl; lia|]. split; [exact Hrc|].
      split; [rewrite Htr; simpl; now rewrite <- !app_assoc|].
      split; [exact Hap|].
      intros _. split; [exact He|]. split; [assumption|].
      destruct es as [|e' es'].
      * simpl. split; lia.
      * destruct Hes as (_ & _ & Hthr & Hmax); [discriminate|].
        simpl in Hthr, Hmax. rewrite length_snoc in Hthr.
        simpl List.length. split; lia.
    + exists [], (EndReflection e (onReflection (config (this w))
                                     (errors (failed e (state (this w))))
                                     (reflectionCalls w))).
      match goal with
      | Hthis : this w1 = _, Hcalls : taskCalls w1 = _, Hrc : reflectionCalls w1 = _,
        Htr : trace w1 = _ |- _ =>
          rewrite runTask_when_reflecting by (now rewrite Hthis);
          shape_nil; simpl; rewrite ?Hthis, ?Hcalls, ?Hrc, ?Htr; simpl; auto; try lia
      end.
      now rewrite <- !app_assoc.
Qed.

(** * What a run's calls carry *)

(** The attempt numbers of the 'beforeAttempt' notifications, in order. *)
Definition attemptsAnnounced (calls : list Obs) : list Z :=
  flat_map (fun o => match fst o with Emit (BeforeAttempt k) => [k] | _ => [] end) calls.

(** The argument lists the task is invoked with, in order. *)
Definition taskArgsOf (calls : list Obs) : list (list Prim) :=
  flat_map (fun o => match fst o with InvokeTask a => [a] | _ => [] end) calls.

(** The payloads of the 'error' notifications, in order. *)
Definition errorsEmitted (calls : list Obs) : list (Z * JsError) :=
  flat_map (fun o => match fst o with Emit (ErrorEvent k e) => [(k, e)] | _ => [] end) calls.

(** The records of failed attempts handed to the logger, in order. *)
Definition attemptsLogged (calls : list Obs) : list (Z * string * string) :=
  flat_map (fun o => match fst o with
                     | LoggerError (AttemptFailed k m s) => [(k, m, s)]
                     | _ => []
                     end) calls.

(** The delays awaited, in order. *)
Definition sleepsOf (calls : list Obs) : list Q :=
  flat_map (fun o => match fst o with Sleep d => [d] | _ => [] end) calls.

(** The record the logger gets for an 'error' payload. *)
Definition recordOf (p : Z * JsError) : Z * string * string :=
  (fst p, message (snd p), stack (snd p)).

(** The attempt numbers [a + 1, ..., a + n]. *)
Definition attemptsFrom (a : Z) (n : nat) : list Z :=
  map (fun i => a + Z.of_nat i) (seq 1 n).

Lemma attemptsFrom_cons (a : Z) (n : nat) :
  attemptsFrom a (S n) = (a + 1) :: attemptsFrom (a + 1) n.
Proof.
  unfold attemptsFrom. simpl. f_equal. rewrite <- seq_shift, map_map.
  apply map_ext. intros i. lia.
Qed.

Lemma attemptsFrom_snoc (a : Z) (n : nat) :
  attemptsFrom a (S n) = attemptsFrom a n ++ [a + Z.of_nat (S n)].
Proof. unfold attemptsFrom. rewrite seq_S, map_app. reflexivity. Qed.

Lemma attemptsAnnounced_app (a b : list Obs) :
  attemptsAnnounced (a ++ b) = attemptsAnnounced a ++ attemptsAnnounced b.
Proof. apply flat_map_app. Qed.

Lemma taskArgsOf_app (a b : list Obs) :
  taskArgsOf (a ++ b) = taskArgsOf a ++ taskArgsOf b.
Proof. apply flat_map_app. Qed.

Lemma errorsEmitted_app (a b : list Obs) :
  errorsEmitted (a ++ b) = errorsEmitted a ++ errorsEmitted b.
Proof. apply flat_map_app. Qed.

Lemma attemptsLogged_app (a b : list Obs) :
  attemptsLogged (a ++ b) = attemptsLogged a ++ attemptsLogged b.
Proof. apply flat_map_app. Qed.

Lemma sleepsOf_app (a b : list Obs) :
  sleepsOf (a ++ b) = sleepsOf a ++ sleepsOf b.
Proof. apply flat_map_app. Qed.

Ltac carry_app :=
  rewrite ?attemptsAnnounced_app, ?taskArgsOf_app, ?errorsEmitted_app,
    ?attemptsLogged_app, ?sleepsOf_app.

Lemma backoffCalls_carry (c : Config) (args : list Prim) (es : list JsError) :
  forall s,
    attemptsAnnounced (backoffCalls c args s es) = attemptsFrom (attempts s) (List.length es)
    /\ taskArgsOf (backoffCalls c args s es) = repeat args (List.length es)
    /\ errorsEmitted (backoffCalls c args s es)
       = combine (attemptsFrom (attempts s) (List.length es)) es
    /\ attemptsLogged (backoffCalls c args s es)
       = map recordOf (errorsEmitted (backoffCalls c args s es))
    /\ sleepsOf (backoffCalls c args s es)
       = map (delayAfter c) (attemptsFrom (attempts s) (List.length es)).
Proof.
  induction es as [|e es IH]; intros s; [repeat split|].
  destruct (IH (failed e s)) as (H1 & H2 & H3 & H4 & H5).
  change (backoffCalls c args s (e :: es))
    with ((callsBefore args s ++ callsRejected e s
             ++ [(Sleep (backoffDelay c (failed e s)), failed e s)])
            ++ backoffCalls c args (failed e s) es).
  change (List.length (e :: es)) with (S (List.length es)).
  rewrite attemptsFrom_cons. carry_app.
  rewrite H1, H2, H4, H5, H3.
  repeat split.
Qed.

(** Passes that back off make none of the calls that end a run. *)
Definition isPassCall (o : Obs) : Prop :=
  match fst o with
  | Emit (BeforeAttempt _) | InvokeTask _ | LoggerError (AttemptFailed _ _ _)
  | Emit (ErrorEvent _ _) | Sleep _ => True
  | _ => False
  end.

Lemma backoffCalls_pass (c : Config) (args : list Prim) (es : list JsError) :
  forall s, Forall isPassCall (backoffCalls c args s es).
Proof.
  induction es as [|e es IH]; intros s; [constructor|].
  cbn [backoffCalls]. apply Forall_app. split; [|apply IH].
  unfold callsBefore, callsRejected. simpl.
  repeat first [apply Forall_nil | apply Forall_cons]; exact I.
Qed.

(** The error of the attempt that ends the run, if it ends by one. *)
Definition endingError (k : Ending) : list JsError :=
  match k with
  | EndUnhandled e | EndReflection e _ => [e]
  | _ => []
  end.

Lemma attemptsFrom_app (n m : nat) :
  forall a, attemptsFrom a (n + m) = attemptsFrom a n ++ attemptsFrom (a + Z.of_nat n) m.
Proof.
  induction n as [|n IH]; intros a.
  - simpl. now rewrite Z.add_0_r.
  - change (S n + m)%nat with (S (n + m)). rewrite !attemptsFrom_cons, IH. simpl.
    do 3 f_equal. lia.
Qed.

Lemma attemptsFrom_length (a : Z) (n : nat) : List.length (attemptsFrom a n) = n.
Proof. unfold attemptsFrom. now rewrite length_map, length_seq. Qed.

Lemma combine_attempts (es : list JsError) :
  forall a,
    map fst (combine (attemptsFrom a (List.length es)) es) = attemptsFrom a (List.length es)
    /\ map snd (combine (attemptsFrom a (List.length es)) es) = es.
Proof.
  induction es as [|e es IH]; intros a; [split; reflexivity|].
  change (List.length (e :: es)) with (S (List.length es)).
  rewrite attemptsFrom_cons. simpl.
  destruct (IH (a + 1)) as [H1 H2]. now rewrite H1, H2.
Qed.

Lemma endingCalls_carry (args : list Prim) (s : RunState) (k : Ending) :
  attemptsAnnounced (endingCalls args s k) = attemptsFrom (attempts s) (endingTaskCalls k)
  /\ taskArgsOf (endingCalls args s k) = repeat args (endingTaskCalls k)
  /\ errorsEmitted (endingCalls args s k)
     = map (fun e => (attempts s + 1, e)) (endingError k)
  /\ attemptsLogged (endingCalls args s k) = map recordOf (errorsEmitted (endingCalls args s k))
  /\ sleepsOf (endingCalls args s k) = [].
Proof.
  destruct k as [| | |e|e [|re]]; repeat split.
Qed.

(** What the calls of a run of shape [es], [k] carry. *)
Lemma shape_carry (c : Config) (args : list Prim) (s : RunState) (es : list JsError)
  (k : Ending) :
  let calls := backoffCalls c args s es ++ endingCalls args (stateAfter s es) k in
  attemptsAnnounced calls = attemptsFrom (attempts s) (List.length es + endingTaskCalls k)
  /\ taskArgsOf calls = repeat args (List.length es + endingTaskCalls k)
  /\ map fst (errorsEmitted calls)
     = attemptsFrom (attempts s) (List.length (es ++ endingError k))
  /\ map snd (errorsEmitted calls) = es ++ endingError k
  /\ attemptsLogged calls = map recordOf (errorsEmitted calls)
  /\ sleepsOf calls = map (delayAfter c) (attemptsFrom (attempts s) (List.length es)).
Proof.
  intros calls. unfold calls. carry_app.
  destruct (backoffCalls_carry c args es s) as (B1 & B2 & B3 & B4 & B5).
  destruct (endingCalls_carry args (stateAfter s es) k) as (E1 & E2 & E3 & E4 & E5).
  destruct (stateAfter_fields es s) as (Ha & _ & _).
  destruct (combine_attempts es (attempts s)) as (C1 & C2).
  rewrite B1, B2, B4, B5, E1, E2, E4, E5, B3, E3, Ha.
  rewrite !map_app, C1, C2, !map_map. simpl.
  split; [now rewrite attemptsFrom_app|].
  split; [now rewrite repeat_app|].
  split.
  { rewrite length_app, attemptsFrom_app. f_equal.
    destruct k; simpl; try reflexivity. }
  split; [now rewrite map_id|].
  split; [reflexivity | now rewrite app_nil_r].
Qed.

Lemma runTask_shape_calls (args : list Prim) (w : World) :
  exists es k,
    RunShape args w (runTask args w) es k
    /\ callsOf args w
       = backoffCalls (config (this w)) args (state (this w)) es
           ++ endingCalls args (stateAfter (state (this w)) es) k.
Proof.
  destruct (runTask_has_shape args w) as (es & k & H).
  exists es, k. split; [exact H|].
  apply callsOf_eq. apply H.
Qed.




(** X11.  In every run the 'beforeAttempt' notifications carry the attempt
    numbers [attempts + 1, attempts + 2, ...], one per invocation of the
    task; the task is always invoked with the arguments of [runTask]; it is
    invoked at most [maxAttempts - attempts] times (never, if that is
    negative); and the strategy is invoked at most once. *)
Theorem runTask_attempts_are_numbered (args : list Prim) (w : World) :
  exists n,
    taskCalls (snd (runTask args w)) = (taskCalls w + n)%nat
    /\ attemptsAnnounced (callsOf args w) = attemptsFrom (attempts (state (this w))) n
    /\ taskArgsOf (callsOf args w) = repeat args n
    /\ Z.of_nat n <= Z.max 0 (maxAttempts (config (this w)) - attempts (state (this w)))
    /\ (reflectionCalls (snd (runTask args w)) <= S (reflectionCalls w))%nat.
Proof.
  destruct (runTask_shape_calls args w) as (es & k & H & Hcalls).
  destruct H as (_ & _ & _ & _ & Htc & Hrc & _ & Hap & Hes).
  destruct (shape_carry (config (this w)) args (state (this w)) es k)
    as (C1 & C2 & _).
  destruct (stateAfter_fields es (state (this w))) as (Ha & _ & _).
  exists (List.length es + endingTaskCalls k)%nat.
  rewrite Hcalls. split; [rewrite Htc; lia|]. split; [exact C1|]. split; [exact C2|].
  split.
  - assert (Hlen : es <> [] ->
                   attempts (state (this w)) + Z.of_nat (List.length es)
                   <= maxAttempts (config (this w))) by (intros Hn; apply Hes, Hn).
    assert (Hcase : es = [] \/ es <> [])
      by (destruct es; [left | right]; congruence).
    unfold endingApplies in Hap.
    destruct k; rewrite ?Ha in Hap; simpl endingTaskCalls;
      (destruct Hcase as [Hnil | Hn];
       [rewrite Hnil in *; simpl in *; lia | specialize (Hlen Hn); lia]).
  - rewrite Hrc. destruct k; simpl; lia.
Qed.

(** X12.  In every run the logger is handed exactly one record of a failed
    attempt per 'error' notification, in the same order and with the same
    attempt number and the error's message and stack; the attempts that fail
    are numbered consecutively from [attempts + 1]. *)
Theorem runTask_logs_every_error_notification (args : list Prim) (w : World) :
  attemptsLogged (callsOf args w) = map recordOf (errorsEmitted (callsOf args w))
  /\ map fst (errorsEmitted (callsOf args w))
     = attemptsFrom (attempts (state (this w)))
         (List.length (errorsEmitted (callsOf args w))).
Proof.
  destruct (runTask_shape_calls args w) as (es & k & _ & Hcalls).
  destruct (shape_carry (config (this w)) args (state (this w)) es k)
    as (_ & _ & C3 & C4 & C5 & _).
  rewrite Hcalls. split; [exact C5|].
  rewrite C3. f_equal.
  rewrite <- (length_map snd), C4. reflexivity.
Qed.

(** X13.  In every run, from every state, the delays awaited are
    [initialDelay * backoffFactor ^ (k - 1)] for [k = attempts + 1,
    attempts + 2, ...]: they follow the attempt counter of the instance,
    which a run that ends by success or by exhaustion does not reset. *)
Theorem runTask_delays_follow_the_attempt_counter (args : list Prim) (w : World) :
  sleepsOf (callsOf args w)
  = map (delayAfter (config (this w)))
      (attemptsFrom (attempts (state (this w))) (List.length (sleepsOf (callsOf args w)))).
Proof.
  destruct (runTask_shape_calls args w) as (es & k & _ & Hcalls).
  destruct (shape_carry (config (this w)) args (state (this w)) es k)
    as (_ & _ & _ & _ & _ & C6).
  rewrite Hcalls, C6. now rewrite length_map, attemptsFrom_length.
Qed.

(** * The error log and the payloads *)

Lemma in_shape_calls (c : Config) (args : list Prim) (s : RunState) (es : list JsError)
  (k : Ending) (o : Obs) :
  In o (backoffCalls c args s es ++ endingCalls args (stateAfter s es) k) ->
  ~ isPassCall o ->
  In o (endingCalls args (stateAfter s es) k).
Proof.
  intros Hin Hn. apply in_app_or in Hin as [Hin | Hin]; [|exact Hin].
  pose proof (backoffCalls_pass c args es s) as Hp. rewrite Forall_forall in Hp.
  elim Hn. now apply Hp.
Qed.

(** X14.  In a run entered with [errorLoop] unset, the errors of the 'error'
    notifications are appended to the error log in order: a run that does
    not invoke the strategy (it ends by success, by exhaustion or by the
    unhandled 'error' event) leaves the log as it was followed by them, and
    the payloads of 'failure', of the strategy and of 'reflection' are that
    same list, errors of earlier runs included. *)
Theorem runTask_appends_errors_to_the_log (args : list Prim) (w : World) :
  errorLoop (state (this w)) = false ->
  let log := errors (state (this w)) ++ map snd (errorsEmitted (callsOf args w)) in
  (reflectionCalls (snd (runTask args w)) = reflectionCalls w ->
   errors (state (this (snd (runTask args w)))) = log)
  /\ (forall errs st, In (Emit (Failure errs), st) (callsOf args w) -> errs = log)
  /\ (forall errs st, In (InvokeReflection errs, st) (callsOf args w) ->
      errs = log /\ state (this (snd (runTask args w))) = initialState)
  /\ (forall errs st, In (Emit (Reflection errs), st) (callsOf args w) -> errs = log).
Proof.
  intros He log.
  destruct (runTask_shape_calls args w) as (es & k & H & Hcalls).
  destruct H as (_ & _ & _ & Hst & _ & Hrc & _ & Hap & _).
  destruct (shape_carry (config (this w)) args (state (this w)) es k)
    as (_ & _ & _ & C4 & _).
  destruct (stateAfter_fields es (state (this w))) as (_ & Herrs & Hel).
  unfold log. rewrite Hcalls, C4. clear log.
  assert (Hk : k <> EndResumedReflection).
  { intros ->. simpl in Hap. congruence. }
  split; [|split; [|split]].
  - intros Hsame. rewrite Hst. rewrite Hsame in Hrc.
    destruct k as [| | |e|e r]; simpl in *; rewrite ?Herrs, ?app_nil_r, ?app_assoc;
      try reflexivity; try congruence; lia.
  - intros errs st Hin. apply in_shape_calls in Hin; [|intros Hp; exact Hp].
    destruct k as [| | |e|e [|re]]; simpl in Hin;
      repeat (destruct Hin as [Hin | Hin]; [try discriminate Hin|]); try contradiction.
    inversion Hin. now rewrite Herrs, app_nil_r.
  - intros errs st Hin. apply in_shape_calls in Hin; [|intros Hp; exact Hp].
    destruct k as [| | |e|e [|re]]; simpl in Hin;
      repeat (destruct Hin as [Hin | Hin]; [try discriminate Hin|]); try contradiction;
      inversion Hin; rewrite Herrs, Hst, app_assoc; split; reflexivity.
  - intros errs st Hin. apply in_shape_calls in Hin; [|intros Hp; exact Hp].
    destruct k as [| | |e|e [|re]]; simpl in Hin;
      repeat (destruct Hin as [Hin | Hin]; [try discriminate Hin|]); try contradiction.
    inversion Hin. now rewrite Herrs, app_assoc.
Qed.

Lemma runTask_appends_errors_to_the_log_witness :
  let w := start (listeningInstance 4 5) in
  errorLoop (state (this w)) = false
  /\ errors (state (this (snd (runTask [] w))))
     = [Error "Test Error" ""; Error "Test Error" ""; Error "Test Error" "";
        Error "Test Error" ""]
  /\ (let log := errors (state (this w)) ++ map snd (errorsEmitted (callsOf [] w)) in
      (reflectionCalls (snd (runTask [] w)) = reflectionCalls w ->
       errors (state (this (snd (runTask [] w)))) = log)
      /\ (forall errs st, In (Emit (Failure errs), st) (callsOf [] w) -> errs = log)
      /\ (forall errs st, In (InvokeReflection errs, st) (callsOf [] w) ->
          errs = log /\ state (this (snd (runTask [] w))) = initialState)
      /\ (forall errs st, In (Emit (Reflection errs), st) (callsOf [] w) -> errs = log)).
Proof.
  split; [reflexivity|]. split; [vm_compute; reflexivity|].
  apply (runTask_appends_errors_to_the_log [] (start (listeningInstance 4 5))).
  reflexivity.
Defined.

(** * A reflection strategy that resolves *)

(** The async function resolves on every invocation. *)
Definition AlwaysResolves {A : Type} (f : AsyncFn A) : Prop :=
  forall a n, f a n = Resolved.

(** X15.  With a reflection strategy that resolves whenever it is invoked
    (the default strategy is one), a run never hands the logger the record
    'Reflection phase failed'; and a run that invokes the strategy ends with
    exactly three calls made with [errorLoop] set: the strategy, 'reflection'
    with the same error list, and 'reflectionExit'; it returns normally and
    leaves the initial state. *)
Theorem resolved_reflection_is_announced (args : list Prim) (w : World) :
  AlwaysResolves (onReflection (config (this w))) ->
  (forall m e s st,
      ~ In (LoggerError (ReflectionFailed m e s), st) (callsOf args w))
  /\ (forall errs st,
         In (InvokeReflection errs, st) (callsOf args w) ->
         (exists pre,
             callsOf args w
             = pre ++ [(InvokeReflection errs, st);
                       (Emit (Reflection errs), st);
                       (Emit ReflectionExit, st)]
             /\ Forall isPassCall pre)
         /\ errorLoop st = true
         /\ errs = errors st
         /\ fst (runTask args w) = Normal tt
         /\ state (this (snd (runTask args w))) = initialState).
Proof.
  intros Hres.
  destruct (runTask_shape_calls args w) as (es & k & H & Hcalls).
  destruct H as (Hk & _ & _ & Hst & _ & _ & _ & Hap & _).
  rewrite Hcalls. split.
  - intros m e s st Hin. apply in_shape_calls in Hin; [|intros Hp; exact Hp].
    destruct k as [| | |e0|e0 r]; simpl in Hin;
      repeat (destruct Hin as [Hin | Hin]; [try discriminate Hin|]); try contradiction.
    destruct Hap as (_ & _ & _ & _ & Hr). rewrite Hres in Hr. subst r.
    discriminate Hin.
  - intros errs st Hin. apply in_shape_calls in Hin; [|intros Hp; exact Hp].
    destruct k as [| | |e0|e0 r]; simpl in Hin;
      repeat (destruct Hin as [Hin | Hin]; [try discriminate Hin|]); try contradiction.
    + destruct Hap as (_ & _ & _ & _ & Hr). rewrite Hres in Hr. subst r.
      inversion Hin; subst errs st; clear Hin.
      split; [|split; [reflexivity|split; [reflexivity|split]]].
      * exists (backoffCalls (config (this w)) args (state (this w)) es
                ++ callsBefore args (stateAfter (state (this w)) es)
                ++ callsRejected e0 (stateAfter (state (this w)) es)).
        split; [cbn [endingCalls reflectionOutcome]; now rewrite <- !app_assoc|].
        apply Forall_app. split; [apply backoffCalls_pass|].
        unfold callsBefore, callsRejected. simpl.
        repeat first [apply Forall_nil | apply Forall_cons]; exact I.
      * rewrite Hk. reflexivity.
      * rewrite Hst. reflexivity.
    + destruct Hap as (_ & _ & _ & _ & Hr). rewrite Hres in Hr. subst r.
      discriminate Hin.
Qed.

Lemma resolved_reflection_is_announced_witness :
  let w := start (listeningInstance 5 3) in
  let es := [Error "Test Error" ""; Error "Test Error" ""; Error "Test Error" ""] in
  In (InvokeReflection es, {| attempts := 3; errors := es; errorLoop := true |})
     (callsOf [] w)
  /\ (forall m e s st, ~ In (LoggerError (ReflectionFailed m e s), st) (callsOf [] w))
  /\ (forall errs st,
         In (InvokeReflection errs, st) (callsOf [] w) ->
         (exists pre,
             callsOf [] w
             = pre ++ [(InvokeReflection errs, st);
                       (Emit (Reflection errs), st);
                       (Emit ReflectionExit, st)]
             /\ Forall isPassCall pre)
         /\ errorLoop st = true
         /\ errs = errors st
         /\ fst (runTask [] w) = Normal tt
         /\ state (this (snd (runTask [] w))) = initialState).
Proof.
  split.
  - vm_compute. do 14 right. left. reflexivity.
  - apply (resolved_reflection_is_announced [] (start (listeningInstance 5 3))).
    intros a n. reflexivity.
Defined.

(** * Success after failures *)




Lemma this_withState_state (w : World) : this (withState (state (this w)) w) = this w.
Proof. destruct w as [[l c s] tc rc tr]. reflexivity. Qed.




(** * What the default strategy prints *)

(** [`${index + 1}`] *)
Definition ordinal (index : nat) : string :=
  DecimalString.NilEmpty.string_of_uint (Nat.to_uint (index + 1)).

(** The lines of [uniqueErrors.forEach((error, index) => console.log(...))],
    from [index] on. *)
Fixpoint numberedFrom (index : nat) (msgs : list string) : list string :=
  match msgs with
  | [] => []
  | m :: rest => (ordinal index ++ ". " ++ m)%string :: numberedFrom (S index) rest
  end.

(** The lines [defaultReflection(errors)] prints with [console.log]. *)
Definition defaultReflectionOutput (errs : list JsError) : list string :=
  let errorMessages := map message errs in
  ["Reflect on the following recurring issues:"%string]
    ++ numberedFrom 0 (uniqueErrors [] errorMessages)
    ++ ["Adjust your settings or input parameters to avoid these issues."%string].

Lemma seen_spec (m : string) (seen : list string) :
  existsb (String.eqb m) seen = true <-> In m seen.
Proof.
  rewrite existsb_exists. split.
  - intros (x & Hin & Heq). apply String.eqb_eq in Heq. now subst x.
  - intros Hin. exists m. split; [exact Hin | apply String.eqb_refl].
Qed.

Lemma uniqueErrors_in (msgs : list string) :
  forall seen m, In m (uniqueErrors seen msgs) <-> In m msgs /\ ~ In m seen.
Proof.
  induction msgs as [|a rest IH]; intros seen m; simpl.
  - tauto.
  - destruct (existsb (String.eqb a) seen) eqn:Ea.
    + apply seen_spec in Ea. rewrite IH. split.
      * intros [H1 H2]. auto.
      * intros [[-> | H1] H2]; [contradiction | auto].
    + assert (Hn : ~ In a seen) by (rewrite <- seen_spec, Ea; discriminate).
      simpl. rewrite IH. simpl. split.
      * intros [-> | [H1 H2]]; [auto | split; [auto | tauto]].
      * intros [[-> | H1] H2]; [now left|].
        destruct (String.eqb a m) eqn:Em.
        -- apply String.eqb_eq in Em. now left.
        -- apply String.eqb_neq in Em. right. split; [exact H1 | tauto].
Qed.

Lemma uniqueErrors_NoDup (msgs : list string) :
  forall seen, NoDup (uniqueErrors seen msgs).
Proof.
  induction msgs as [|a rest IH]; intros seen; simpl; [constructor|].
  destruct (existsb (String.eqb a) seen); [apply IH|].
  constructor; [|apply IH].
  rewrite uniqueErrors_in. simpl. tauto.
Qed.

Lemma uniqueErrors_app (l1 l2 : list string) :
  forall seen,
    uniqueErrors seen (l1 ++ l2)
    = uniqueErrors seen l1 ++ uniqueErrors (rev (uniqueErrors seen l1) ++ seen) l2.
Proof.
  induction l1 as [|a rest IH]; intros seen; simpl; [reflexivity|].
  destruct (existsb (String.eqb a) seen); [apply IH|].
  simpl. rewrite IH, <- app_assoc. reflexivity.
Qed.

Lemma numberedFrom_length (msgs : list string) :
  forall index, List.length (numberedFrom index msgs) = List.length msgs.
Proof.
  induction msgs as [|m rest IH]; intros index; simpl; [reflexivity|].
  now rewrite IH.
Qed.

Lemma numberedFrom_nth (msgs : list string) :
  forall index i m,
    nth_error msgs i = Some m ->
    nth_error (numberedFrom index msgs) i = Some (ordinal (index + i) ++ ". " ++ m)%string.
Proof.
  induction msgs as [|a rest IH]; intros index [|i] m H; simpl in H; try discriminate.
  - inversion H. simpl. now rewrite Nat.add_0_r.
  - simpl. rewrite (IH (S index) i m H). do 3 f_equal. lia.
Qed.

(** X17.  The default strategy resolves for every error list, and between
    its two fixed lines it prints each distinct message of the list exactly
    once, in the order of first occurrence, line [i] (from 1) being
    [i. message]; errors that come later in the list do not change the lines
    already determined by the earlier ones. *)
Theorem defaultReflection_prints_each_message_once (errs : list JsError) (n : nat) :
  let printed := uniqueErrors [] (map message errs) in
  defaultReflection errs n = Resolved
  /\ NoDup printed
  /\ (forall m, In m printed <-> exists e, In e errs /\ message e = m)
  /\ (forall more, exists tail, uniqueErrors [] (map message (errs ++ more)) = printed ++ tail)
  /\ List.length (defaultReflectionOutput errs) = S (S (List.length printed))
  /\ nth_error (defaultReflectionOutput errs) 0
     = Some "Reflect on the following recurring issues:"%string
  /\ (forall i m,
         nth_error printed i = Some m ->
         nth_error (defaultReflectionOutput errs) (S i)
         = Some (ordinal i ++ ". " ++ m)%string)
  /\ nth_error (defaultReflectionOutput errs) (S (List.length printed))
     = Some "Adjust your settings or input parameters to avoid these issues."%string.
Proof.
  intros printed. split; [reflexivity|]. split; [apply uniqueErrors_NoDup|].
  split.
  { intros m. unfold printed. rewrite uniqueErrors_in, in_map_iff. simpl.
    split.
    - intros [(e & He & Hin) _]. exists e. auto.
    - intros (e & Hin & He). split; [exists e; auto | tauto]. }
  split.
  { intros more. rewrite map_app, uniqueErrors_app. eexists. reflexivity. }
  unfold defaultReflectionOutput. fold printed.
  split; [simpl; rewrite length_app, numberedFrom_length; simpl; lia|].
  split; [reflexivity|].
  split.
  - intros i m H. simpl.
    rewrite nth_error_app1 by (rewrite numberedFrom_length; apply nth_error_Some; congruence).
    apply (numberedFrom_nth printed 0 i m H).
  - simpl. rewrite nth_error_app2 by (rewrite numberedFrom_length; lia).
    rewrite numberedFrom_length, Nat.sub_diag. reflexivity.
Qed.
